(** * SmartHomeNG utility libraries: [lib/env] and [lib/userfunctions]

    A shallow embedding of the two Python modules and the properties their
    specification states about them.

    Numbers.  Where a function only compares its argument with constants
    (the Beaufort tables), a Python number is modelled by its exact value
    in [Q]: every [int] and every finite [float] (an IEEE binary64) is a
    rational, and Python compares [int] and [float] operands by their exact
    values.  A float literal of the source is the binary64 it denotes,
    embedded by [fl] (so [fl 0.3] is the double nearest to 3/10, not 3/10).
    Where a function computes with its argument (the conversions between
    m/s, km/h and miles per second, the wind directions), the argument is
    an [int] or a binary64, and the operations round, overflow and raise as
    those of Python do.  The conversions for knots and for distances are
    modelled on exact values.

    Strings are byte strings ([string]); the non-ASCII letters of the German
    table are their UTF-8 bytes.

    Exceptions are instances of [Exception], the class that the handlers of
    the source name; [SystemExit] and [KeyboardInterrupt] are not modelled.
    A logger call appends a record to a log. *)

From Stdlib Require Import ZArith QArith Qabs Qround Lqa Floats.
From Stdlib Require Import Ascii.
From stdpp Require Import base option list strings sorting gmap.

Set Warnings "-inexact-float".
#[local] Open Scope Z_scope.

(** ** Python run-time notions used by both modules *)

Module Py.

(** An exception instance: its class name and [str(e)]. *)
Record exn := Exn { exn_class : string; exn_str : string }.

(** What evaluating a Python expression or call ends in. *)
Inductive outcome (A : Type) : Type :=
| Return (a : A)
| Raise (e : exn).
Arguments Return {A} a.
Arguments Raise {A} e.

#[export] Instance outcome_ret : MRet outcome := @Return.
#[export] Instance outcome_bind : MBind outcome :=
  fun A B f m => match m with Return a => f a | Raise e => Raise e end.

(** Python values, as far as the two modules look at them.  [VOther] is an
    object of any other type, carried with its [str()] rendering. *)
Inductive pyval :=
| VNone
| VInt (z : Z)
| VFloat (q : Q)
| VStr (s : string)
| VOther (shown : string).

(** The pieces of an f-string: literal text and interpolated values (the
    rendering of a value by [str()] is left to the logging back end). *)
Inductive frag :=
| Txt (s : string)
| Val (v : pyval)
| Err (e : exn).

Inductive level := DEBUG | NOTICE | WARNING | ERROR.

(** One call of a logger method. *)
Record logrec := Log { log_level : level; log_msg : list frag }.

(** The exact value of a binary64 (finite ones; the source has no other
    literal). *)
Definition fl (f : float) : Q :=
  match Prim2SF f with
  | S754_finite s m e =>
      Qred ((if s then -1 else 1) * inject_Z (Zpos m) * Qpower 2 e)
  | _ => 0%Q
  end.

(** [x / y] on numbers. *)
Definition truediv (x y : Q) : outcome Q :=
  if Qeq_bool y 0 then Raise (Exn "ZeroDivisionError" "division by zero")
  else Return (x / y)%Q.

(** [int(x)] on a number: truncation towards zero. *)
Definition int (x : Q) : Z :=
  if Qle_bool 0 x then Qfloor x else Qceiling x.

(** *** Arithmetic on [int] and [float]

    Where a function computes with its argument, the argument is an [int],
    which is unbounded, or a [float], which is an IEEE binary64 (NaN and
    the infinities included), and every operation on floats rounds as the
    hardware does: the operations below are those of the primitive
    binary64 of the kernel. *)
Inductive num :=
| NInt (z : Z)
| NFloat (f : float).

Definition is_finite (f : float) : bool := negb (is_nan f || is_infinity f).

(** The binary64 nearest to a rational whose denominator is a power of two;
    it is that rational when the rational is a binary64. *)
Definition float_of_dyadic (q : Q) : float :=
  let q := Qred q in
  SF2Prim (binary_normalize prec emax (Qnum q) (- Z.log2 (Zpos (Qden q))) false).

Definition int_too_large : exn :=
  Exn "OverflowError" "int too large to convert to float".

(** [float(z)] on an [int], also where an operator converts its [int]
    operand: the nearest binary64, ties to even; an [int] that rounds to
    [2^1024] raises. *)
Definition float_of_int (z : Z) : outcome float :=
  if 2 ^ 1024 - 2 ^ 970 <=? Z.abs z then Raise int_too_large
  else Return (SF2Prim (binary_normalize prec emax z 0 false)).

Definition to_float (x : num) : outcome float :=
  match x with
  | NInt z => float_of_int z
  | NFloat f => Return f
  end.

(** [x / y] on floats. *)
Definition float_truediv (x y : float) : outcome float :=
  if (y =? 0)%float then
    Raise (Exn "ZeroDivisionError" "float division by zero")
  else Return (x / y)%float.

(** [x * y], [x / y] and [x + y] with a [float] on the right. *)
Definition mul_float (x : num) (y : float) : outcome float :=
  f ← to_float x; Return (f * y)%float.

Definition div_float (x : num) (y : float) : outcome float :=
  f ← to_float x; float_truediv f y.

Definition add_float (x : num) (y : float) : outcome float :=
  f ← to_float x; Return (f + y)%float.

(** C's [fmod]: the remainder of the truncated quotient, which is a
    binary64 and has the sign of [x]. *)
Definition fmod (x y : float) : float :=
  if is_nan x || is_nan y || is_infinity x || is_zero y then PrimFloat.nan
  else if is_infinity y then x
  else
    let a := Qabs (fl x) in
    let b := Qabs (fl y) in
    let m := float_of_dyadic (a - b * inject_Z (Qfloor (a / b))) in
    if get_sign x then (- m)%float else m.

(** [x % y] on floats (CPython's [float_rem]): [fmod], moved into the range
    of the divisor's sign by one rounded addition. *)
Definition float_rem (x y : float) : outcome float :=
  if (y =? 0)%float then Raise (Exn "ZeroDivisionError" "float modulo")
  else
    let m := fmod x y in
    Return (if (m =? 0)%float then (if get_sign y then PrimFloat.neg_zero else PrimFloat.zero)
            else if xorb (y <? 0)%float (m <? 0)%float then (m + y)%float
            else m).

(** [x % y] with an [int] on the right: exact on an [int], [float_rem] on a
    [float]. *)
Definition mod_int (x : num) (y : Z) : outcome num :=
  match x with
  | NInt z =>
      if y =? 0 then Raise (Exn "ZeroDivisionError" "integer modulo by zero")
      else Return (NInt (z mod y))
  | NFloat f => w ← float_of_int y; r ← float_rem f w; Return (NFloat r)
  end.

(** [int(f)] on a [float]. *)
Definition int_of_float (f : float) : outcome Z :=
  if is_nan f then
    Raise (Exn "ValueError" "cannot convert float NaN to integer")
  else if is_infinity f then
    Raise (Exn "OverflowError" "cannot convert float infinity to integer")
  else Return (int (fl f)).

(** A number as a value; a float that is no finite number is carried by its
    [str()] rendering. *)
Definition pyval_of_num (x : num) : pyval :=
  match x with
  | NInt z => VInt z
  | NFloat f =>
      if is_nan f then VOther "nan"
      else if is_infinity f then VOther (if get_sign f then "-inf" else "inf")
      else VFloat (fl f)
  end.

(** The number that a value is, if it is one; [VFloat q] is the float whose
    exact value is [q]. *)
Definition num_of_pyval (v : pyval) : option num :=
  match v with
  | VInt z => Some (NInt z)
  | VFloat q => Some (NFloat (float_of_dyadic q))
  | _ => None
  end.

(** [l[i]] on a list with an [int] index: negative indices count from the
    end, anything out of range raises [IndexError]. *)
Definition getitem {A} (l : list A) (i : Z) : outcome A :=
  let n := Z.of_nat (length l) in
  let j := if i <? 0 then n + i else i in
  if (0 <=? j) && (j <? n) then
    match l !! Z.to_nat j with
    | Some x => Return x
    | None => Raise (Exn "IndexError" "list index out of range")
    end
  else Raise (Exn "IndexError" "list index out of range").

(** [min(iterable)]: the first least item under [<]; an empty iterable
    raises [ValueError] (the message text varies with the CPython
    version). *)
Fixpoint min_from {A} (lt : A -> A -> bool) (best : A) (l : list A) : A :=
  match l with
  | [] => best
  | x :: r => min_from lt (if lt x best then x else best) r
  end.

Definition min_empty : exn := Exn "ValueError" "min() arg is an empty sequence".

Definition min {A} (lt : A -> A -> bool) (l : list A) : outcome A :=
  match l with
  | [] => Raise min_empty
  | x :: r => Return (min_from lt x r)
  end.

(** [a < b] on tuples [(number, int)]: lexicographic. *)
Definition tuple_lt (a b : Q * Z) : bool :=
  match (a.1 ?= b.1)%Q with
  | Lt => true
  | Eq => a.2 <? b.2
  | Gt => false
  end.

(** [s.lower()], on the ASCII letters (no other character lower-cases to an
    ASCII letter that the callers compare with). *)
Definition lower_ascii (c : Ascii.ascii) : Ascii.ascii :=
  let n := Ascii.N_of_ascii c in
  if ((65 <=? n) && (n <=? 90))%N then Ascii.ascii_of_N (n + 32) else c.

Fixpoint lower (s : string) : string :=
  match s with
  | EmptyString => EmptyString
  | String c r => String (lower_ascii c) (lower r)
  end.

End Py.

(** ** [lib/env/__init__.py]: conversions of environment data *)

Module LibEnv.
Import Py.

(** What a function of the module ends in, with the records it handed to
    a logger on the way. *)
Record run (A : Type) := Run { result : outcome A; logged : list logrec }.
Arguments Run {A} result logged.
Arguments result {A} r.
Arguments logged {A} r.

Definition _mile : Q := Eval vm_compute in fl 1609.344%float.
Definition _nautical_mile : Q := inject_Z 1852.

Definition kn_to_kmh (speed : Q) : outcome Q :=
  Return (speed * _nautical_mile)%Q.

Definition kmh_to_kn (speed : Q) : outcome Q :=
  truediv speed _nautical_mile.

(** [_mile] as the binary64 that the float operations take ([_mile] above is
    its exact value). *)
Definition _mile64 : float := 1609.344%float.

(** The records of the two handlers. *)
Definition kmh_to_ms_error (speed : num) (e : exn) : logrec :=
  Log ERROR [Txt "kmh_to_ms: Cannot convert speed to m/s, received speed='";
             Val (pyval_of_num speed); Txt "' - Exception "; Err e].

Definition ms_to_kmh_error (speed : num) (e : exn) : logrec :=
  Log ERROR [Txt "ms_to_kmh: Cannot convert speed to km/h, received speed='";
             Val (pyval_of_num speed); Txt "' - Exception "; Err e].

(** [try: return speed / 3.6  except Exception as e: log; return -1] *)
Definition kmh_to_ms (speed : num) : run num :=
  match div_float speed 3.6 with
  | Return v => Run (Return (NFloat v)) []
  | Raise e => Run (Return (NInt (-1))) [kmh_to_ms_error speed e]
  end.

(** [try: return speed * 3.6  except Exception as e: log; return -1] *)
Definition ms_to_kmh (speed : num) : run num :=
  match mul_float speed 3.6 with
  | Return v => Run (Return (NFloat v)) []
  | Raise e => Run (Return (NInt (-1))) [ms_to_kmh_error speed e]
  end.

(** [return speed * 3.6 * _mile] *)
Definition mps_to_kmh (speed : num) : outcome float :=
  x ← mul_float speed 3.6; Return (x * _mile64)%float.

(** [return speed / 3.6 / _mile] *)
Definition kmh_to_mps (speed : num) : outcome float :=
  x ← div_float speed 3.6; float_truediv x _mile64.

(** The table of [ms_to_bft]: upper bound of the speed in m/s, Beaufort
    number.  The last bound is the [int] 999. *)
Definition table : list (Q * Z) := Eval vm_compute in
  [ (fl 0.3%float, 0); (fl 1.6%float, 1); (fl 3.4%float, 2);
    (fl 5.5%float, 3); (fl 8.0%float, 4); (fl 10.8%float, 5);
    (fl 13.9%float, 6); (fl 17.2%float, 7); (fl 20.8%float, 8);
    (fl 24.5%float, 9); (fl 28.5%float, 10); (fl 32.7%float, 11);
    (inject_Z 999, 12) ].

(** [min(filter(lambda x: x[0] >= speed, table))] *)
Definition lookup_bft (speed : Q) : outcome (Q * Z) :=
  min tuple_lt (List.filter (fun x => Qle_bool speed x.1) table).

Definition ms_to_bft (speed : Q) : run Z :=
  match lookup_bft speed with
  | Return row => Run (Return row.2) []
  | Raise e =>
      Run (Return (-1))
        [Log ERROR
           [Txt "ms_to_bft: Cannot translate wind-speed to beaufort-number, received speed='";
            Val (VFloat speed); Txt "' - Exception "; Err e]]
  end.

(** [ms_to_bft] as it is called with the result of an operation.  An [int]
    and a finite [float] are compared by their exact values.  NaN compares
    false with every bound, and so does the positive infinity: no row is
    left and [min] raises.  The negative infinity is below every bound: the
    first row is the least. *)
Definition ms_to_bft_num (speed : num) : run Z :=
  match speed with
  | NInt z => ms_to_bft (inject_Z z)
  | NFloat f =>
      if is_nan f || (is_infinity f && negb (get_sign f)) then
        Run (Return (-1))
          [Log ERROR
             [Txt "ms_to_bft: Cannot translate wind-speed to beaufort-number, received speed='";
              Val (pyval_of_num speed); Txt "' - Exception "; Err min_empty]]
      else if is_infinity f then Run (Return 0) []
      else ms_to_bft (fl f)
  end.

(** [ms_to_bft(kmh_to_ms(speed))] *)
Definition kmh_to_bft (speed : num) : run Z :=
  let r1 := kmh_to_ms speed in
  match result r1 with
  | Return v =>
      let r2 := ms_to_bft_num v in Run (result r2) (logged r1 ++ logged r2)
  | Raise e => Run (Raise e) (logged r1)
  end.

Definition _beaufort_descriptions_de : list string :=
  [ "Windstille"; "leiser Zug"; "leichte Brise"; "schwacher Wind";
    "mäßiger Wind"; "frischer Wind"; "starker Wind"; "steifer Wind";
    "stürmischer Wind"; "Sturm"; "schwerer Sturm"; "orkanartiger Sturm";
    "Orkan" ]%string.

Definition _beaufort_descriptions_en : list string :=
  [ "Calm"; "Light air"; "Light breeze"; "Gentle breeze"; "Moderate breeze";
    "Fresh breeze"; "Strong breeze"; "High wind"; "Fresh Gale";
    "Strong Gale"; "Storm"; "Violent storm"; "Hurricane-force" ]%string.

(** [bft_to_text(bft, language='de')]; [language] is a [str]. *)
Definition bft_to_text (bft : pyval) (language : string) : run string :=
  match bft with
  | VInt n =>
      if (n <? 0) || (12 <? n) then
        Run (Return EmptyString)
          [Log ERROR [Txt "speed_in_bft is out of scale: '"; Val bft; Txt "'"]]
      else if String.eqb (lower language) "de" then
        Run (getitem _beaufort_descriptions_de n) []
      else Run (getitem _beaufort_descriptions_en n) []
  | _ =>
      Run (Return EmptyString)
        [Log ERROR [Txt "speed_in_bft is not given as int: '"; Val bft; Txt "'"]]
  end.

(** Distances.  The methods take a number of miles or of meters. *)
Definition _miles_to_meter (miles : Q) : outcome Q :=
  Return (miles * _mile)%Q.

Definition _nauticalmiles_to_meter (miles : Q) : outcome Q :=
  Return (miles * inject_Z 1852)%Q.

Definition _meter_to_miles (meter : Q) : outcome Q := truediv meter _mile.

Definition _meter_to_nauticalmiles (meter : Q) : outcome Q :=
  truediv meter (inject_Z 1852).

(** What a global name of the module is bound to: a function of one number,
    or an object that is called with no single number (the [logging]
    module, the logger, the two constants, [bft_to_text], the class). *)
Inductive gobj :=
| GFun (f : pyval -> run pyval)
| GOther.

Definition unsupported_call : run pyval :=
  Run (Raise (Exn "TypeError" "unsupported call")) [].

(** A function of the model as a function on values: of the exact value of
    its argument, or of the [int] or [float] that the argument is. *)
Definition lift_num (f : Q -> outcome Q) (arg : pyval) : run pyval :=
  match arg with
  | VFloat x => Run (v ← f x; Return (VFloat v)) []
  | VInt z => Run (v ← f (inject_Z z); Return (VFloat v)) []
  | _ => unsupported_call
  end.

Definition lift_int (f : Q -> run Z) (arg : pyval) : run pyval :=
  match arg with
  | VFloat x => let r := f x in Run (v ← result r; Return (VInt v)) (logged r)
  | VInt z =>
      let r := f (inject_Z z) in Run (v ← result r; Return (VInt v)) (logged r)
  | _ => unsupported_call
  end.

Definition lift_float (f : num -> outcome float) (arg : pyval) : run pyval :=
  match num_of_pyval arg with
  | Some x => Run (v ← f x; Return (pyval_of_num (NFloat v))) []
  | None => unsupported_call
  end.

Definition lift_run (f : num -> run num) (arg : pyval) : run pyval :=
  match num_of_pyval arg with
  | Some x =>
      let r := f x in Run (v ← result r; Return (pyval_of_num v)) (logged r)
  | None => unsupported_call
  end.

Definition lift_bft (f : num -> run Z) (arg : pyval) : run pyval :=
  match num_of_pyval arg with
  | Some x => let r := f x in Run (v ← result r; Return (VInt v)) (logged r)
  | None => unsupported_call
  end.

(** The names bound at module level.  A name that is neither here nor a
    builtin raises [NameError] when a function body loads it. *)
Definition module_globals : list (string * gobj) :=
  [ ("logging", GOther); ("_logger", GOther); ("_mile", GOther);
    ("_nautical_mile", GOther);
    ("kn_to_kmh", GFun (lift_num kn_to_kmh));
    ("kmh_to_kn", GFun (lift_num kmh_to_kn));
    ("ms_to_kmh", GFun (lift_run ms_to_kmh));
    ("kmh_to_ms", GFun (lift_run kmh_to_ms));
    ("mps_to_kmh", GFun (lift_float mps_to_kmh));
    ("kmh_to_mps", GFun (lift_float kmh_to_mps));
    ("ms_to_bft", GFun (lift_int ms_to_bft));
    ("kmh_to_bft", GFun (lift_bft kmh_to_bft));
    ("bft_to_text", GOther);
    ("_miles_to_meter", GFun (lift_num _miles_to_meter));
    ("_nauticalmiles_to_meter", GFun (lift_num _nauticalmiles_to_meter));
    ("_meter_to_miles", GFun (lift_num _meter_to_miles));
    ("_meter_to_nauticalmiles", GFun (lift_num _meter_to_nauticalmiles));
    ("Env", GOther) ]%string.

Definition load_global (name : string) : outcome gobj :=
  match List.find (fun b => String.eqb b.1 name) module_globals with
  | Some b => Return b.2
  | None =>
      Raise (Exn "NameError" ("name '" ++ name ++ "' is not defined"))
  end.

(** Calling a loaded object with one argument. *)
Definition call (g : gobj) (arg : pyval) : run pyval :=
  match g with
  | GFun f => f arg
  | GOther => unsupported_call
  end.

(** *** class [Env] *)

Module Env.

(** [Env.mps_to_beaufort(self, speed_in_mps)]: [None] is Python's [None];
    only [ValueError] is handled.  The table of the method is the literal
    of [ms_to_bft] once more, and the record goes to [self._logger], the
    logger of the object given to [__init__]. *)
Definition mps_to_beaufort (speed_in_mps : Q) : run (option Z) :=
  match min tuple_lt (List.filter (fun x => Qle_bool speed_in_mps x.1) table) with
  | Return row => Run (Return (Some row.2)) []
  | Raise e =>
      if String.eqb (exn_class e) "ValueError" then
        Run (Return None)
          [Log ERROR
             [Txt "Cannot translate wind-speed to beaufort-number, received: '";
              Val (VFloat speed_in_mps); Txt "'"]]
      else Run (Raise e) []
  end.

(** [Env.kmh_to_beaufort(speed_in_kmh)], a static method:
    [return mps_to_beaufort(kmh_to_mps(speed_in_kmh))].  Both callees are
    loaded as globals of the module, the outer one first. *)
Definition kmh_to_beaufort (speed_in_kmh : Q) : run pyval :=
  match load_global "mps_to_beaufort" with
  | Raise e => Run (Raise e) []
  | Return outer =>
      match load_global "kmh_to_mps" with
      | Raise e => Run (Raise e) []
      | Return inner =>
          let r1 := call inner (VFloat speed_in_kmh) in
          match result r1 with
          | Raise e => Run (Raise e) (logged r1)
          | Return v =>
              let r2 := call outer v in Run (result r2) (logged r1 ++ logged r2)
          end
      end
  end.

Definition lit_1_852 : Q := Eval vm_compute in fl 1.852%float.

Definition kn_to_kmh (speed_in_kn : Q) : outcome Q :=
  Return (speed_in_kn * lit_1_852)%Q.

Definition kmh_to_kn (speed_in_kmh : Q) : outcome Q :=
  truediv speed_in_kmh lit_1_852.

Definition direction_array8 : list string :=
  [ "N"; "NO"; "O"; "SO"; "S"; "SW"; "W"; "NW"; "N" ]%string.

Definition direction_array16 : list string :=
  [ "N"; "NNO"; "NO"; "ONO"; "O"; "OSO"; "SO"; "SSO"; "S"; "SSW"; "SW";
    "WSW"; "W"; "WNW"; "NW"; "NNW"; "N" ]%string.

(** [index = int((deg % 360 + 22.5) / 45); return direction_array[index]]
    (the [int] 45 is converted to the float 45.0 by the division). *)
Definition get_wind_direction8 (deg : num) : outcome string :=
  m ← mod_int deg 360;
  s ← add_float m 22.5;
  q ← float_truediv s 45;
  index ← int_of_float q;
  getitem direction_array8 index.

(** [index = int((deg % 360 + 11.25) / 22.5)] *)
Definition get_wind_direction16 (deg : num) : outcome string :=
  m ← mod_int deg 360;
  s ← add_float m 11.25;
  q ← float_truediv s 22.5;
  index ← int_of_float q;
  getitem direction_array16 index.

(** The conversions of the class between m/s, km/h and miles per second;
    the factors are written out in each method, and no method has a
    handler. *)
Definition ms_to_kmh (speed_in_mps : num) : outcome float :=
  mul_float speed_in_mps 3.6.

Definition kmh_to_ms (speed_in_kmh : num) : outcome float :=
  div_float speed_in_kmh 3.6.

Definition mps_to_kmh (speed_in_mps : num) : outcome float :=
  x ← mul_float speed_in_mps 3.6; Return (x * 1609.344)%float.

Definition kmh_to_mps (speed_in_kmh : num) : outcome float :=
  x ← div_float speed_in_kmh 3.6; float_truediv x 1609.344.

(** The two tables of the class, class attributes with the literals of
    [bft_to_text] once more. *)
Definition _beaufort_descriptions_de : list string :=
  [ "Windstille"; "leiser Zug"; "leichte Brise"; "schwacher Wind";
    "mäßiger Wind"; "frischer Wind"; "starker Wind"; "steifer Wind";
    "stürmischer Wind"; "Sturm"; "schwerer Sturm"; "orkanartiger Sturm";
    "Orkan" ]%string.

Definition _beaufort_descriptions_en : list string :=
  [ "Calm"; "Light air"; "Light breeze"; "Gentle breeze"; "Moderate breeze";
    "Fresh breeze"; "Strong breeze"; "High wind"; "Fresh Gale";
    "Strong Gale"; "Storm"; "Violent storm"; "Hurricane-force" ]%string.

(** A method called on [None]: [self._logger] of an object whose
    [__init__] has not run is the class attribute, [None]. *)
Definition no_logger (method : string) : exn :=
  Exn "AttributeError"
    ("'NoneType' object has no attribute '" +:+ method +:+ "'").

(** [self._logger.<method>(msg); return None] *)
Definition log_and_return_none (sh : option string) (lv : level)
    (method : string) (msg : list frag) : run (option string) :=
  match sh with
  | Some _ => Run (Return None) [Log lv msg]
  | None => Run (Raise (no_logger method)) []
  end.

(** [Env.get_beaufort_description(self, speed_in_bft)].  [sh] tells what
    [self] is: [Some language] for an object built by [__init__] from a
    host that has a logger and whose [get_defaultlanguage()] returns the
    given language code; [None] for an object whose [__init__] has not run,
    so that [_sh] and [_logger] are the class attributes, both [None].  The
    result [None] is Python's [None]. *)
Definition get_beaufort_description (sh : option string) (speed_in_bft : pyval)
  : run (option string) :=
  match speed_in_bft with
  | VNone =>
      log_and_return_none sh WARNING "warning"
        [Txt "speed_in_bft is given as None"]
  | VInt n =>
      if (n <? 0) || (12 <? n) then
        log_and_return_none sh ERROR "error"
          [Txt "speed_in_bft is out of scale: '"; Val speed_in_bft; Txt "'"]
      else
        match sh with
        | None => Run (x ← getitem _beaufort_descriptions_de n; Return (Some x)) []
        | Some language =>
            if String.eqb language "de" then
              Run (x ← getitem _beaufort_descriptions_de n; Return (Some x)) []
            else
              Run (x ← getitem _beaufort_descriptions_en n; Return (Some x)) []
        end
  | _ =>
      log_and_return_none sh ERROR "error"
        [Txt "speed_in_bft is not given as int: '"; Val speed_in_bft; Txt "'"]
  end.

End Env.

(** *** Notions used to state the properties *)

(** A row sorts before another when both its bound and its number are
    smaller. *)
Definition row_below (a b : Q * Z) : Prop := (a.1 < b.1)%Q /\ a.2 < b.2.

(** The record [ms_to_bft] logs when [min] raises. *)
Definition ms_to_bft_error (speed : Q) : logrec :=
  Log ERROR
    [Txt "ms_to_bft: Cannot translate wind-speed to beaufort-number, received speed='";
     Val (VFloat speed); Txt "' - Exception "; Err min_empty].

(** The record [Env.mps_to_beaufort] logs on [ValueError]. *)
Definition mps_to_beaufort_error (speed : Q) : logrec :=
  Log ERROR
    [Txt "Cannot translate wind-speed to beaufort-number, received: '";
     Val (VFloat speed); Txt "'"].

(** Two calls are observably the same when both return equal numbers or
    both raise the same exception. *)
Definition same_result (r1 r2 : outcome Q) : Prop :=
  match r1, r2 with
  | Return a, Return b => (a == b)%Q
  | Raise e1, Raise e2 => e1 = e2
  | _, _ => False
  end.

(** The records [bft_to_text] logs for an argument it rejects. *)
Definition not_int_error (bft : pyval) : logrec :=
  Log ERROR [Txt "speed_in_bft is not given as int: '"; Val bft; Txt "'"].

Definition out_of_scale_error (bft : pyval) : logrec :=
  Log ERROR [Txt "speed_in_bft is out of scale: '"; Val bft; Txt "'"].

(** The [int] bearings of one turn, and what is checked on each of them by
    evaluation: that a call returns a given entry of an array, and that the
    two functions agree where the 16-point one gives a principal label. *)
Definition turn : list Z := Z.of_nat <$> seq 0 360.

Definition returns_entry (o : outcome string) (l : list string) (i : Z) : bool :=
  match o with
  | Return s =>
      (0 <=? i) && (i <? Z.of_nat (length l)) &&
      bool_decide (l !! Z.to_nat i = Some s)
  | Raise _ => false
  end.

Definition principal_agrees (r : Z) : bool :=
  match Env.get_wind_direction16 (NInt r), Env.get_wind_direction8 (NInt r) with
  | Return a, Return b =>
      implb (bool_decide (a ∈ Env.direction_array8)) (String.eqb a b)
  | _, _ => false
  end.

End LibEnv.

(** ** [lib/userfunctions.py]: the loader of user modules *)

Module Userfunctions.
Import Py.

(** *** Strings *)

(** [s.endswith(suf)] *)
Fixpoint endswith (s suf : string) : bool :=
  String.eqb s suf ||
  match s with
  | EmptyString => false
  | String _ r => endswith r suf
  end.

(** [s.split(".")[0]]: the part before the first dot, all of [s] when it
    has none. *)
Fixpoint before_dot (s : string) : string :=
  match s with
  | EmptyString => EmptyString
  | String c r => if Ascii.eqb c "."%char then EmptyString else String c (before_dot r)
  end.

(** [sorted(l)] on a list of [str]: ascending in the lexicographic order
    of the code points (which, on UTF-8 bytes, is the order of the bytes).
    Equal strings are identical, so the result does not depend on the
    sorting algorithm. *)
Definition sorted (l : list string) : list string := merge_sort String.le l.

(** [os.path.join(a, b)] for a relative [b] (posixpath). *)
Definition path_join (a b : string) : string :=
  if String.eqb a EmptyString || endswith a "/" then a +:+ b
  else a +:+ "/" +:+ b.

(** *** The names an interpolated snippet resolves as written

    [import_user_module] and [reload] build Python source text from the
    module name and run it with [exec].  The model follows the text for
    names that are ASCII identifiers and no keywords, and that the module
    itself does not use: not one of its globals, not a builtin.  (A module
    named like a global would replace that global when it is imported.)
    For any other name the model gives no answer.  Names that are locals
    of the function that calls [exec] are followed: the snippet sees the
    local, not the imported module. *)

Definition is_letter (c : Ascii.ascii) : bool :=
  let n := Ascii.N_of_ascii c in
  (((65 <=? n) && (n <=? 90)) || ((97 <=? n) && (n <=? 122)) || (n =? 95))%N.

Definition is_digit (c : Ascii.ascii) : bool :=
  let n := Ascii.N_of_ascii c in ((48 <=? n) && (n <=? 57))%N.

Fixpoint all_chars (p : Ascii.ascii -> bool) (s : string) : bool :=
  match s with
  | EmptyString => true
  | String c r => p c && all_chars p r
  end.

Definition is_identifier (s : string) : bool :=
  match s with
  | EmptyString => false
  | String c r => is_letter c && all_chars (fun x => is_letter x || is_digit x) r
  end.

Definition keywords : list string :=
  [ "False"; "None"; "True"; "and"; "as"; "assert"; "async"; "await";
    "break"; "class"; "continue"; "def"; "del"; "elif"; "else"; "except";
    "finally"; "for"; "from"; "global"; "if"; "import"; "in"; "is";
    "lambda"; "nonlocal"; "not"; "or"; "pass"; "raise"; "return"; "try";
    "while"; "with"; "yield" ].

(** The globals of the module. *)
Definition loader_names : list string :=
  [ "os"; "logging"; "_logger"; "_uf_subdir"; "_func_dir"; "_user_modules";
    "_uf_version"; "_uf_description"; "import_user_module"; "init_lib";
    "get_uf_dir"; "reload"; "reload_all"; "list_userlib_files" ].

(** The builtins that the module calls. *)
Definition used_builtins : list string :=
  [ "exec"; "globals"; "sorted"; "str"; "Exception" ].

Definition is_dunder (s : string) : bool := String.prefix "__" s.

(** *** State *)

(** A module object is known by its identity; its attributes live in the
    heap, so that two references to one module see the same attributes. *)
Definition handle := nat.

(** What a name of a snippet can denote: a [str], or a module object. *)
Inductive pyobj :=
| OStr (s : string)
| OModule (h : handle).

(** The local variables of a function, by name. *)
Definition scope := list (string * pyobj).

Definition find_local (locals : scope) (name : string) : option pyobj :=
  match List.find (fun b => String.eqb b.1 name) locals with
  | Some b => Some b.2
  | None => None
  end.

Record state := State {
  _func_dir : option string;          (* [None] is Python's [None] *)
  _user_modules : list string;
  _uf_version : pyval;
  _uf_description : pyval;
  bound : gmap string handle;         (* [globals()[m]] for user modules *)
  heap : gmap handle (gmap string pyval);
  log : list logrec
}.

(** The module as it is after its own import and before [init_lib] (the
    two metadata globals are not bound yet; nothing reads them before they
    are assigned). *)
Definition initial (hp : gmap handle (gmap string pyval)) : state :=
  State None [] VNone VNone ∅ hp [].

Definition module_attrs (hp : gmap handle (gmap string pyval)) (h : handle)
  : gmap string pyval := default ∅ (hp !! h).

(** What the interpreter and the file system do for the loader. *)
Record runtime := Runtime {
  getcwd : outcome string;
  isdir : string -> bool;
  listdir : string -> outcome (list string);
  (** [importlib.import_module(name)]: the module object, or the exception
      of the import; either way code of the module may have run. *)
  import_module : string -> gmap handle (gmap string pyval) ->
                  outcome handle * gmap handle (gmap string pyval);
  (** [importlib.reload(module)] *)
  reload_module : handle -> gmap handle (gmap string pyval) ->
                  outcome unit * gmap handle (gmap string pyval);
  (** the module object of the standard library's [importlib] *)
  importlib_module : handle;
  (** the names of the builtins *)
  is_builtin : string -> bool
}.

(** A computation of the loader: [None] when the model gives no answer. *)
Definition M (A : Type) : Type := state -> option (outcome A * state).

#[export] Instance M_ret : MRet M := fun A a σ => Some (Return a, σ).
#[export] Instance M_bind : MBind M := fun A B f m σ =>
  match m σ with
  | Some (Return a, σ') => f a σ'
  | Some (Raise e, σ') => Some (Raise e, σ')
  | None => None
  end.

Definition raise {A} (e : exn) : M A := fun σ => Some (Raise e, σ).
Definition beyond {A} : M A := fun _ => None.

(** [try: body] with the handler left to the caller: the body's outcome as
    a value. *)
Definition try {A} (body : M A) : M (outcome A) := fun σ =>
  match body σ with
  | Some (o, σ') => Some (Return o, σ')
  | None => None
  end.

Definition lift {A} (o : outcome A) : M A := fun σ => Some (o, σ).
Definition get {A} (f : state -> A) : M A := fun σ => Some (Return (f σ), σ).
Definition modify (f : state -> state) : M unit := fun σ => Some (Return tt, f σ).

Definition set_func_dir (d : string) (σ : state) : state :=
  State (Some d) (_user_modules σ) (_uf_version σ) (_uf_description σ)
    (bound σ) (heap σ) (log σ).
Definition set_user_modules (l : list string) (σ : state) : state :=
  State (_func_dir σ) l (_uf_version σ) (_uf_description σ)
    (bound σ) (heap σ) (log σ).
Definition set_uf_version (v : pyval) (σ : state) : state :=
  State (_func_dir σ) (_user_modules σ) v (_uf_description σ)
    (bound σ) (heap σ) (log σ).
Definition set_uf_description (v : pyval) (σ : state) : state :=
  State (_func_dir σ) (_user_modules σ) (_uf_version σ) v
    (bound σ) (heap σ) (log σ).
Definition set_bound (b : gmap string handle) (σ : state) : state :=
  State (_func_dir σ) (_user_modules σ) (_uf_version σ) (_uf_description σ)
    b (heap σ) (log σ).
Definition set_heap (hp : gmap handle (gmap string pyval)) (σ : state) : state :=
  State (_func_dir σ) (_user_modules σ) (_uf_version σ) (_uf_description σ)
    (bound σ) hp (log σ).
Definition add_log (r : logrec) (σ : state) : state :=
  State (_func_dir σ) (_user_modules σ) (_uf_version σ) (_uf_description σ)
    (bound σ) (heap σ) (log σ ++ [r]).

(** A call of [_logger.<level>(msg)]. *)
Definition logger (lv : level) (msg : list frag) : M unit :=
  modify (add_log (Log lv msg)).

Definition _uf_subdir : string := "functions".

(** *** The spec's words *)

(** The extension-stripped base name of a file name that ends in [.py]. *)
Fixpoint strip_py (s : string) : string :=
  if String.eqb s ".py" then EmptyString
  else match s with
       | EmptyString => EmptyString
       | String c r => String c (strip_py r)
       end.

Definition no_dot (s : string) : bool :=
  all_chars (fun c => negb (Ascii.eqb c ".")) s.

(** *** A run-time to evaluate the loader on *)

(** The import of [functions.a] and of [functions.m] gives a module object
    without metadata, the import of [functions.b] one with both attributes,
    any other import fails; every reload fails on a syntax error. *)
Definition demo_import (name : string) (hp : gmap handle (gmap string pyval))
  : outcome handle * gmap handle (gmap string pyval) :=
  if String.eqb name "functions.a" then
    (Return 1%nat, <[1%nat := module_attrs hp 1%nat]> hp)
  else if String.eqb name "functions.m" then
    (Return 2%nat, <[2%nat := module_attrs hp 2%nat]> hp)
  else if String.eqb name "functions.b" then
    (Return 3%nat,
     <[3%nat := {[ "_VERSION" := VStr "1.0"; "_DESCRIPTION" := VStr "demo" ]}]> hp)
  else (Raise (Exn "ModuleNotFoundError" "No module named that"), hp).

Definition demo (files : list string) : runtime :=
  {| getcwd := Return "/usr/local/smarthome";
     isdir := fun d => String.eqb d "/usr/local/smarthome/functions";
     listdir := fun _ => Return files;
     import_module := demo_import;
     reload_module := fun _ hp => (Raise (Exn "SyntaxError" "invalid syntax"), hp);
     importlib_module := 0%nat;
     is_builtin := fun s => bool_decide (s ∈ ["print"; "len"; "min"; "id"]) |}.

(** The registry holds [a], and [a] is bound to nothing. *)
Definition registered_unbound : state :=
  set_user_modules ["a"] (initial ∅).

(** A run-time on which nothing fails: every import gives the module
    object 7, without attributes unless the heap has some for it, and every
    reload returns and leaves the heap as it is. *)
Definition demo_ok (files : list string) : runtime :=
  {| getcwd := Return "/usr/local/smarthome";
     isdir := fun d => String.eqb d "/usr/local/smarthome/functions";
     listdir := fun _ => Return files;
     import_module := fun _ hp => (Return 7%nat, <[7%nat := module_attrs hp 7%nat]> hp);
     reload_module := fun _ hp => (Return tt, hp);
     importlib_module := 0%nat;
     is_builtin := fun s => bool_decide (s ∈ ["print"; "len"; "min"; "id"]) |}.

(** The registry holds [a] and [userlib]; both are bound to module
    objects. *)
Definition registered_bound : state :=
  set_bound {[ "a" := 1%nat; "userlib" := 2%nat ]}
    (set_user_modules ["a"; "userlib"] (initial ∅)).

(** The registry holds [m], and [m] is bound to nothing. *)
Definition registered_unbound_m : state :=
  set_user_modules ["m"] (initial ∅).

(** *** The operations *)

Section Loader.
Variable rt : runtime.

Definition user_name (m : string) : bool :=
  is_identifier m && negb (is_dunder m) && negb (is_builtin rt m) &&
  negb (bool_decide (m ∈ keywords)) && negb (bool_decide (m ∈ loader_names)) &&
  negb (bool_decide (m ∈ used_builtins)).

Definition name_error (name : string) : exn :=
  Exn "NameError" ("name '" +:+ name +:+ "' is not defined").

Definition module_attribute_error (attr : string) : exn :=
  Exn "AttributeError" ("module has no attribute '" +:+ attr +:+ "'").

Definition str_attribute_error (attr : string) : exn :=
  Exn "AttributeError" ("'str' object has no attribute '" +:+ attr +:+ "'").

(** The locals of [import_user_module] when it calls [exec]: its
    parameter, the module it imported as [importlib], and [modulename]. *)
Definition import_locals (m : string) : scope :=
  [ ("m", OStr m); ("importlib", OModule (importlib_module rt));
    ("modulename", OStr (_uf_subdir +:+ "." +:+ m)) ].

(** The locals of [reload] when it calls [exec]. *)
Definition reload_locals (userlib : string) : scope :=
  [ ("userlib", OStr userlib); ("importlib", OModule (importlib_module rt)) ].

(** [exec(f"globals()['{m}']=importlib.import_module('{modulename}')")] *)
Definition exec_import (m modulename : string) : M unit := fun σ =>
  match import_module rt modulename (heap σ) with
  | (Return h, hp) =>
      Some (Return tt, set_bound (<[m := h]> (bound σ)) (set_heap hp σ))
  | (Raise e, hp) => Some (Raise e, set_heap hp σ)
  end.

(** A name evaluated by a snippet: [exec] runs the text with the locals of
    its caller and the globals of the module, the locals first. *)
Definition resolve (locals : scope) (name : string) : M pyobj := fun σ =>
  match find_local locals name with
  | Some o => Some (Return o, σ)
  | None =>
      match bound σ !! name with
      | Some h => Some (Return (OModule h), σ)
      | None => Some (Raise (name_error name), σ)
      end
  end.

(** [<object>.attr] read and assigned. *)
Definition getattr (o : pyobj) (attr : string) : M pyval := fun σ =>
  match o with
  | OModule h =>
      match module_attrs (heap σ) h !! attr with
      | Some v => Some (Return v, σ)
      | None => Some (Raise (module_attribute_error attr), σ)
      end
  | OStr _ => Some (Raise (str_attribute_error attr), σ)
  end.

Definition setattr (o : pyobj) (attr : string) (v : pyval) : M unit :=
  match o with
  | OModule h =>
      modify (fun σ =>
        set_heap (<[h := <[attr := v]> (module_attrs (heap σ) h)]> (heap σ)) σ)
  | OStr _ => raise (str_attribute_error attr)
  end.

(** The block that reads one metadata attribute of the imported module
    (the source has it twice, for [_VERSION] and for [_DESCRIPTION]):
<<
    global _uf_version
    _uf_version = '?.?.?'
    try:
        exec( f"globals()['_uf_version'] = {m}._VERSION" )
    except:
        exec( f"{m}._VERSION = _uf_version" )
>>
    [getg] and [setg] read and assign the global. *)
Definition fetch_metadata (locals : scope) (m attr : string)
    (placeholder : pyval)
    (getg : state -> pyval) (setg : pyval -> state -> state) : M unit :=
  modify (setg placeholder);;
  r ← try (o ← resolve locals m; v ← getattr o attr; modify (setg v));
  match r with
  | Return _ => mret tt
  | Raise _ => o ← resolve locals m; v ← get getg; setattr o attr v
  end.

Definition import_user_module (m : string) : M bool :=
  if negb (user_name m) then beyond else
  let modulename := _uf_subdir +:+ "." +:+ m in
  r ← try (exec_import m modulename);
  match r with
  | Raise e =>
      logger ERROR [Txt "Error importing userfunctions '"; Val (VStr m);
                    Txt "': "; Err e];;
      mret false
  | Return _ =>
      fetch_metadata (import_locals m) m "_VERSION" (VStr "?.?.?")
        _uf_version set_uf_version;;
      fetch_metadata (import_locals m) m "_DESCRIPTION" (VStr "?")
        _uf_description set_uf_description;;
      v ← get _uf_version; d ← get _uf_description;
      logger NOTICE [Txt "Imported userfunctions from '"; Val (VStr m);
                     Txt "' v"; Val v; Txt " - "; Val d];;
      mret true
  end.

(** [for f in wrk: if f.endswith('.py'): user_modules.append(f.split(".")[0])] *)
Fixpoint collect (wrk : list string) (user_modules : list string) : list string :=
  match wrk with
  | [] => user_modules
  | f :: r =>
      collect r (if endswith f ".py" then user_modules ++ [before_dot f]
                 else user_modules)
  end.

(** [for m in _user_modules: import_user_module(m)] *)
Fixpoint import_each (l : list string) : M unit :=
  match l with
  | [] => mret tt
  | m :: r => import_user_module m;; import_each r
  end.

Definition init_lib (shng_base_dir : option string) : M unit :=
  base_dir ← match shng_base_dir with
             | Some d => mret d
             | None => lift (getcwd rt)
             end;
  let d := path_join base_dir _uf_subdir in
  modify (set_func_dir d);;
  user_modules ← (if isdir rt d
                  then wrk ← lift (listdir rt d); mret (collect wrk [])
                  else mret []);
  modify (set_user_modules (sorted user_modules));;
  reg ← get _user_modules;
  import_each reg.

Definition get_uf_dir : M (option string) := get _func_dir.

(** [importlib.reload(<object>)] *)
Definition call_reload (o : pyobj) : M unit := fun σ =>
  match o with
  | OModule h =>
      let '(r, hp) := reload_module rt h (heap σ) in Some (r, set_heap hp σ)
  | OStr _ =>
      Some (Raise (Exn "TypeError" "reload() argument must be a module"), σ)
  end.

(** [exec(f"importlib.reload({userlib})")] *)
Definition exec_reload (userlib : string) : M unit :=
  o ← resolve (reload_locals userlib) userlib; call_reload o.

Definition reload (userlib : string) : M bool :=
  reg ← get _user_modules;
  if bool_decide (userlib ∈ reg) then
    if negb (user_name userlib) then beyond else
    r ← try (exec_reload userlib);
    match r with
    | Raise e =>
        if String.eqb (exn_str e) ("name '" +:+ userlib +:+ "' is not defined")
        then
          logger WARNING
            [Txt "Error reloading userfunctions '"; Val (VStr userlib);
             Txt "': Module is not loaded, trying to newly import userfunctions '";
             Val (VStr userlib); Txt "' instead"];;
          b ← import_user_module userlib;
          if b : bool then mret true else mret false
        else
          logger ERROR
            [Txt "Error reloading userfunctions '"; Val (VStr userlib);
             Txt "': "; Err e; Txt " - old version of '"; Val (VStr userlib);
             Txt "' is still active"];;
          mret false
    | Return _ =>
        logger NOTICE [Txt "Reloaded userfunctions uf."; Val (VStr userlib)];;
        mret true
    end
  else
    logger ERROR [Txt "uf.reload: Userfunction uf."; Val (VStr userlib);
                  Txt " do not exist"];;
    mret false.

(** [for lib in _user_modules: if not reload(lib): result = False] *)
Fixpoint reload_each (l : list string) (result : bool) : M bool :=
  match l with
  | [] => mret result
  | lib :: r =>
      b ← reload lib;
      reload_each r (if b : bool then result else false)
  end.

Definition reload_all : M bool :=
  reg ← get _user_modules;
  match reg with
  | [] =>
      logger WARNING [Txt "No userfunctions are loaded, nothing to reload"];;
      mret false
  | _ :: _ => reload_each reg true
  end.

(** [for lib in _user_modules: _logger.warning(f'uf.{lib}')] *)
Fixpoint warn_each (l : list string) : M unit :=
  match l with
  | [] => mret tt
  | lib :: r => logger WARNING [Txt "uf."; Val (VStr lib)];; warn_each r
  end.

Definition list_userlib_files : M unit :=
  reg ← get _user_modules; warn_each reg.

(** *** What an import leaves behind *)

(** What the name [name] denotes in a snippet once [globals()[name]] is the
    module object [h]. *)
Definition denoted (locals : scope) (name : string) (h : handle) : pyobj :=
  default (OModule h) (find_local locals name).

(** The heap after [fetch_metadata] on the module object [t]: the attribute
    is given the placeholder when the object lacks it. *)
Definition fill (t : handle) (attr : string) (placeholder : pyval)
    (hp : gmap handle (gmap string pyval)) : gmap handle (gmap string pyval) :=
  match module_attrs hp t !! attr with
  | Some _ => hp
  | None => <[t := <[attr := placeholder]> (module_attrs hp t)]> hp
  end.

(** The state after a successful import of [m] as the module object [h],
    [hp] being the heap the import left and [t] the module object that the
    name [m] denotes in the snippets. *)
Definition imported (m : string) (h t : handle)
    (hp : gmap handle (gmap string pyval)) (σ : state) : state :=
  let v := default (VStr "?.?.?") (module_attrs hp t !! "_VERSION") in
  let d := default (VStr "?") (module_attrs hp t !! "_DESCRIPTION") in
  State (_func_dir σ) (_user_modules σ) v d (<[m := h]> (bound σ))
    (fill t "_DESCRIPTION" (VStr "?") (fill t "_VERSION" (VStr "?.?.?") hp))
    (log σ ++ [Log NOTICE [Txt "Imported userfunctions from '"; Val (VStr m);
                           Txt "' v"; Val v; Txt " - "; Val d]]).

(** The state after a failed import. *)
Definition import_failed (m : string) (e : exn)
    (hp : gmap handle (gmap string pyval)) (σ : state) : state :=
  add_log (Log ERROR [Txt "Error importing userfunctions '"; Val (VStr m);
                      Txt "': "; Err e])
    (set_heap hp σ).

(** The state in which [import_user_module] raises when the name [m]
    denotes a [str] in the snippets: the module is imported and bound, and
    nothing is written to it. *)
Definition import_stuck (m : string) (h : handle)
    (hp : gmap handle (gmap string pyval)) (σ : state) : state :=
  set_uf_version (VStr "?.?.?")
    (set_bound (<[m := h]> (bound σ)) (set_heap hp σ)).

(** The names [init_lib] derives from a directory listing. *)
Definition names_of (wrk : list string) : list string :=
  before_dot <$> List.filter (fun f => endswith f ".py") wrk.

(** The records [reload] logs. *)
Definition not_loaded_warning (userlib : string) : logrec :=
  Log WARNING
    [Txt "Error reloading userfunctions '"; Val (VStr userlib);
     Txt "': Module is not loaded, trying to newly import userfunctions '";
     Val (VStr userlib); Txt "' instead"].

Definition reload_error (userlib : string) (e : exn) : logrec :=
  Log ERROR
    [Txt "Error reloading userfunctions '"; Val (VStr userlib);
     Txt "': "; Err e; Txt " - old version of '"; Val (VStr userlib);
     Txt "' is still active"].

Definition unknown_error (userlib : string) : logrec :=
  Log ERROR [Txt "uf.reload: Userfunction uf."; Val (VStr userlib);
             Txt " do not exist"].

Definition reloaded_notice (userlib : string) : logrec :=
  Log NOTICE [Txt "Reloaded userfunctions uf."; Val (VStr userlib)].

(** The exception of [importlib.reload] on an argument that is no module. *)
Definition reload_type_error : exn :=
  Exn "TypeError" "reload() argument must be a module".

(** The record of a failed import. *)
Definition import_error (m : string) (e : exn) : logrec :=
  Log ERROR [Txt "Error importing userfunctions '"; Val (VStr m);
             Txt "': "; Err e].

(** The records of [reload_all] and of [list_userlib_files]. *)
Definition nothing_to_reload : logrec :=
  Log WARNING [Txt "No userfunctions are loaded, nothing to reload"].

Definition listed (lib : string) : logrec :=
  Log WARNING [Txt "uf."; Val (VStr lib)].

Definition is_error (r : logrec) : bool :=
  match log_level r with ERROR => true | _ => false end.

(** *** Facts on the string functions *)

Lemma endswith_spec s suf :
  endswith s suf = true <-> exists pre, s = pre +:+ suf.
Proof.
  induction s as [|c s IH].
  - unfold endswith. rewrite orb_false_r. rewrite String.eqb_eq. split.
    + intros <-. now exists "".
    + intros [[|c pre] H]; simpl in H; [done|discriminate].
  - change (endswith (String c s) suf)
      with (String.eqb (String c s) suf || endswith s suf).
    rewrite orb_true_iff, String.eqb_eq, IH. split.
    + intros [<-|[pre ->]]; [now exists ""|now exists (String c pre)].
    + intros [[|c' pre] H]; simpl in H; [now left|right].
      injection H as <- ->. now exists pre.
Qed.

Lemma length_app (a b : string) :
  String.length (a +:+ b) = (String.length a + String.length b)%nat.
Proof. induction a as [|c a IH]; simpl; [reflexivity|]. now rewrite IH. Qed.

Lemma strip_py_app pre : strip_py (pre +:+ ".py") = pre.
Proof.
  induction pre as [|c pre IH]; [reflexivity|].
  change (strip_py (String c pre +:+ ".py"))
    with (if String.eqb (String c (pre +:+ ".py")) ".py" then EmptyString
          else String c (strip_py (pre +:+ ".py"))).
  destruct (String.eqb_spec (String c (pre +:+ ".py")) ".py") as [H|_].
  - apply (f_equal String.length) in H. simpl in H.
    rewrite length_app in H. simpl in H. lia.
  - now rewrite IH.
Qed.

Lemma before_dot_app pre rest :
  no_dot pre = true -> before_dot (pre +:+ String "." rest) = pre.
Proof.
  induction pre as [|c pre IH]; intros H.
  - reflexivity.
  - change (String c pre +:+ String "." rest)
      with (String c (pre +:+ String "." rest)).
    simpl in *. apply andb_true_iff in H as [Hc Hpre].
    destruct (Ascii.eqb c "."); [discriminate|]. now rewrite IH.
Qed.

(** [before_dot s] is a prefix of [s] without a dot, and what follows it
    in [s] is nothing or starts with a dot. *)
Lemma before_dot_prefix s :
  no_dot (before_dot s) = true /\
  exists rest, s = before_dot s +:+ rest /\
               (rest = EmptyString \/ exists r, rest = String "." r).
Proof.
  induction s as [|c s [IHn (rest & IH & Hrest)]]; simpl.
  - split; [reflexivity|]. exists "". split; [reflexivity|now left].
  - destruct (Ascii.eqb c ".") eqn:Hc.
    + split; [reflexivity|]. exists (String c s). split; [reflexivity|].
      right. exists s. apply Ascii.eqb_eq in Hc. now subst.
    + split; [unfold no_dot in *; simpl; now rewrite Hc, IHn|].
      exists rest. split; [|exact Hrest].
      change (String c s = String c (before_dot s +:+ rest)). now rewrite <- IH.
Qed.

(** On a file name [stem.py] whose stem has no dot, the code's name is the
    stem. *)
Lemma before_dot_strip_py f :
  endswith f ".py" = true -> no_dot (strip_py f) = true ->
  before_dot f = strip_py f.
Proof.
  intros [pre ->]%endswith_spec. rewrite strip_py_app. apply before_dot_app.
Qed.

Lemma strip_py_inj f g :
  endswith f ".py" = true -> endswith g ".py" = true ->
  strip_py f = strip_py g -> f = g.
Proof.
  intros [pre ->]%endswith_spec [pre' ->]%endswith_spec.
  rewrite !strip_py_app. now intros ->.
Qed.

(** *** Facts on the import *)

Lemma set_heap_same σ : set_heap (heap σ) σ = σ.
Proof. now destruct σ. Qed.

Lemma resolve_bound locals name σ h :
  bound σ !! name = Some h ->
  resolve locals name σ = Some (Return (denoted locals name h), σ).
Proof.
  intros Hb. unfold resolve, denoted.
  destruct (find_local locals name); [reflexivity|]. now rewrite Hb.
Qed.

Section Metadata.
Variables (getg : state -> pyval) (setg : pyval -> state -> state).
Hypothesis setg_bound : forall v τ, bound (setg v τ) = bound τ.
Hypothesis setg_heap : forall v τ, heap (setg v τ) = heap τ.
Hypothesis getg_setg : forall v τ, getg (setg v τ) = v.
Hypothesis setg_setg : forall v w τ, setg v (setg w τ) = setg v τ.
Hypothesis setg_set_heap :
  forall v hp τ, set_heap hp (setg v τ) = setg v (set_heap hp τ).

Lemma fetch_metadata_module locals m attr placeholder σ h t :
  bound σ !! m = Some h -> denoted locals m h = OModule t ->
  fetch_metadata locals m attr placeholder getg setg σ =
    Some (Return tt,
          setg (default placeholder (module_attrs (heap σ) t !! attr))
            (set_heap (fill t attr placeholder (heap σ)) σ)).
Proof.
  intros Hm Ht.
  unfold fetch_metadata, mbind, M_bind, try, modify.
  rewrite (resolve_bound locals m _ h) by now rewrite setg_bound.
  rewrite Ht. unfold getattr, fill. rewrite setg_heap.
  destruct (module_attrs (heap σ) t !! attr) as [v|] eqn:Hv; simpl.
  - now rewrite setg_setg, set_heap_same.
  - rewrite (resolve_bound locals m _ h) by now rewrite setg_bound.
    rewrite Ht. unfold get, setattr, modify.
    now rewrite getg_setg, setg_heap, setg_set_heap.
Qed.

Lemma fetch_metadata_str locals m attr placeholder σ h s :
  bound σ !! m = Some h -> denoted locals m h = OStr s ->
  fetch_metadata locals m attr placeholder getg setg σ =
    Some (Raise (str_attribute_error attr), setg placeholder σ).
Proof.
  intros Hm Ht.
  unfold fetch_metadata, mbind, M_bind, try, modify.
  rewrite (resolve_bound locals m _ h) by now rewrite setg_bound.
  rewrite Ht. simpl.
  rewrite (resolve_bound locals m _ h) by now rewrite setg_bound.
  now rewrite Ht.
Qed.

End Metadata.

Lemma fill_lookup t attr placeholder hp attr' :
  module_attrs (fill t attr placeholder hp) t !! attr' =
  match module_attrs hp t !! attr' with
  | Some v => Some v
  | None => if decide (attr = attr') then Some placeholder else None
  end.
Proof.
  unfold fill. destruct (module_attrs hp t !! attr) as [v|] eqn:Hv.
  - destruct (module_attrs hp t !! attr') eqn:Hv'; [reflexivity|].
    destruct (decide (attr = attr')); [congruence|reflexivity].
  - unfold module_attrs at 1. rewrite lookup_insert_eq. simpl.
    destruct (decide (attr = attr')) as [<-|Hne].
    + now rewrite lookup_insert_eq, Hv.
    + rewrite lookup_insert_ne by exact Hne.
      now destruct (module_attrs hp t !! attr').
Qed.

Lemma fill_frame t attr placeholder hp h' :
  h' <> t -> fill t attr placeholder hp !! h' = hp !! h'.
Proof.
  intros Hne. unfold fill. destruct (module_attrs hp t !! attr); [reflexivity|].
  now rewrite lookup_insert_ne.
Qed.

Lemma fill_present t attr placeholder hp :
  is_Some (module_attrs hp t !! attr) -> fill t attr placeholder hp = hp.
Proof. intros [v Hv]. unfold fill. now rewrite Hv. Qed.

Lemma import_user_module_failed m σ e hp :
  user_name m = true ->
  import_module rt (_uf_subdir +:+ "." +:+ m) (heap σ) = (Raise e, hp) ->
  import_user_module m σ = Some (Return false, import_failed m e hp σ).
Proof.
  intros Hm Himp. unfold import_user_module. rewrite Hm. simpl.
  unfold mbind, M_bind, try, exec_import. now rewrite Himp.
Qed.

Lemma import_user_module_ok m σ h hp t :
  user_name m = true ->
  import_module rt (_uf_subdir +:+ "." +:+ m) (heap σ) = (Return h, hp) ->
  denoted (import_locals m) m h = OModule t ->
  import_user_module m σ = Some (Return true, imported m h t hp σ).
Proof.
  intros Hm Himp Ht. unfold import_user_module. rewrite Hm. simpl.
  unfold mbind at 1, M_bind at 1, try at 1, exec_import. rewrite Himp.
  unfold mbind at 1, M_bind at 1.
  erewrite fetch_metadata_module with (h := h) (t := t);
    [|first [reflexivity|exact Ht|apply lookup_insert_eq]..].
  unfold mbind at 1, M_bind at 1.
  erewrite fetch_metadata_module with (h := h) (t := t);
    [|first [reflexivity|exact Ht|apply lookup_insert_eq]..].
  simpl. unfold imported. rewrite fill_lookup.
  destruct (module_attrs hp t !! "_DESCRIPTION"); reflexivity.
Qed.

Lemma import_user_module_stuck m σ h hp s :
  user_name m = true ->
  import_module rt (_uf_subdir +:+ "." +:+ m) (heap σ) = (Return h, hp) ->
  denoted (import_locals m) m h = OStr s ->
  import_user_module m σ =
    Some (Raise (str_attribute_error "_VERSION"), import_stuck m h hp σ).
Proof.
  intros Hm Himp Ht. unfold import_user_module. rewrite Hm. simpl.
  unfold mbind at 1, M_bind at 1, try at 1, exec_import. rewrite Himp.
  unfold mbind at 1, M_bind at 1.
  erewrite fetch_metadata_str with (h := h) (s := s);
    [|first [reflexivity|exact Ht|apply lookup_insert_eq]..].
  reflexivity.
Qed.

(** The names that are locals of [import_user_module]. *)
Lemma denoted_import m h :
  denoted (import_locals m) m h =
  if String.eqb "m" m then OStr m
  else if String.eqb "importlib" m then OModule (importlib_module rt)
  else if String.eqb "modulename" m then OStr (_uf_subdir +:+ "." +:+ m)
  else OModule h.
Proof.
  unfold denoted, find_local, import_locals. cbn [List.find fst snd].
  destruct (String.eqb "m" m); [reflexivity|].
  destruct (String.eqb "importlib" m); [reflexivity|].
  destruct (String.eqb "modulename" m); reflexivity.
Qed.

Lemma denoted_import_plain m h :
  m <> "m" -> m <> "importlib" -> m <> "modulename" ->
  denoted (import_locals m) m h = OModule h.
Proof.
  intros H1 H2 H3. rewrite denoted_import.
  destruct (String.eqb_spec "m" m); [congruence|].
  destruct (String.eqb_spec "importlib" m); [congruence|].
  destruct (String.eqb_spec "modulename" m); [congruence|reflexivity].
Qed.

(** An import ends, returning or raising, and leaves the registry and the
    directory as they are; it returns unless the module is named like one
    of the two [str] locals. *)
Lemma import_user_module_ends m σ :
  user_name m = true ->
  exists o σ',
    import_user_module m σ = Some (o, σ') /\
    _user_modules σ' = _user_modules σ /\ _func_dir σ' = _func_dir σ /\
    (m <> "m" -> m <> "modulename" -> exists b, o = Return b).
Proof.
  intros Hm.
  destruct (import_module rt (_uf_subdir +:+ "." +:+ m) (heap σ))
    as [[h|e] hp] eqn:Himp.
  - destruct (denoted (import_locals m) m h) as [s|t] eqn:Ht.
    + exists (Raise (str_attribute_error "_VERSION")), (import_stuck m h hp σ).
      split; [now apply (import_user_module_stuck _ _ _ _ s)|].
      split; [reflexivity|]. split; [reflexivity|].
      intros H1 H2. rewrite denoted_import in Ht.
      destruct (String.eqb_spec "m" m); [congruence|].
      destruct (String.eqb "importlib" m); [discriminate|].
      destruct (String.eqb_spec "modulename" m); [congruence|discriminate].
    + exists (Return true), (imported m h t hp σ).
      split; [now apply import_user_module_ok|].
      split; [reflexivity|]. split; [reflexivity|]. now exists true.
  - exists (Return false), (import_failed m e hp σ).
    split; [now apply import_user_module_failed|].
    split; [reflexivity|]. split; [reflexivity|]. now exists false.
Qed.

Lemma import_each_ends l : forall σ,
  (forall m, m ∈ l -> user_name m = true) ->
  exists o σ',
    import_each l σ = Some (o, σ') /\
    _user_modules σ' = _user_modules σ /\ _func_dir σ' = _func_dir σ /\
    ("m" ∉ l -> "modulename" ∉ l -> o = Return tt).
Proof.
  induction l as [|m l IH]; intros σ Hl.
  - exists (Return tt), σ. now repeat split.
  - destruct (import_user_module_ends m σ)
      as (o1 & σ1 & H1 & Hreg1 & Hdir1 & Hret1).
    { apply Hl. now left. }
    destruct (IH σ1) as (o2 & σ2 & H2 & Hreg2 & Hdir2 & Hret2).
    { intros m' Hm'. apply Hl. now right. }
    simpl. unfold mbind, M_bind. rewrite H1. destruct o1 as [b|e].
    + exists o2, σ2. split; [exact H2|]. split; [congruence|].
      split; [congruence|]. intros Hm Hmn. apply Hret2.
      * intros Hin. apply Hm. now right.
      * intros Hin. apply Hmn. now right.
    + exists (Raise e), σ1. split; [reflexivity|]. split; [exact Hreg1|].
      split; [exact Hdir1|]. intros Hm Hmn.
      destruct Hret1 as [b Hb]; [| |discriminate].
      * intros ->. apply Hm. now left.
      * intros ->. apply Hmn. now left.
Qed.

Lemma collect_spec wrk : forall acc,
  collect wrk acc =
  acc ++ (before_dot <$> List.filter (fun f => endswith f ".py") wrk).
Proof.
  induction wrk as [|f wrk IH]; intros acc; simpl.
  - now rewrite app_nil_r.
  - rewrite IH. destruct (endswith f ".py"); [|reflexivity].
    now rewrite <- app_assoc.
Qed.

(** *** [init_lib] *)

Lemma elem_of_names_of wrk n :
  n ∈ names_of wrk <->
  exists f, f ∈ wrk /\ endswith f ".py" = true /\ n = before_dot f.
Proof.
  unfold names_of. rewrite list_elem_of_fmap. split.
  - intros (f & -> & Hf). apply list_elem_of_In, filter_In in Hf as [Hf Hpy].
    exists f. split; [now apply list_elem_of_In|]. now split.
  - intros (f & Hf & Hpy & ->). exists f. split; [reflexivity|].
    apply list_elem_of_In, filter_In. split; [now apply list_elem_of_In|exact Hpy].
Qed.

Lemma elem_of_sorted l n : n ∈ sorted l <-> n ∈ l.
Proof. unfold sorted. now rewrite merge_sort_Permutation. Qed.

(** Any ascending rearrangement of [l] is [sorted l]. *)
Lemma sorted_unique l l' :
  StronglySorted String.le l' -> l' ≡ₚ l -> l' = sorted l.
Proof.
  intros Hs Hp. apply (StronglySorted_unique String.le); [exact Hs| |].
  - apply StronglySorted_merge_sort; apply _.
  - unfold sorted. now rewrite merge_sort_Permutation.
Qed.

Lemma init_lib_run shng_base_dir σ base_dir wrk :
  match shng_base_dir with Some d => Return d | None => getcwd rt end
    = Return base_dir ->
  (if isdir rt (path_join base_dir _uf_subdir)
   then listdir rt (path_join base_dir _uf_subdir) else Return [])
    = Return wrk ->
  init_lib shng_base_dir σ =
  import_each (sorted (names_of wrk))
    (set_user_modules (sorted (names_of wrk))
       (set_func_dir (path_join base_dir _uf_subdir) σ)).
Proof.
  intros Hbase Hwrk. unfold init_lib.
  assert (Hb : (match shng_base_dir with
                | Some d => mret d
                | None => lift (getcwd rt)
                end : M string) σ = Some (Return base_dir, σ)).
  { destruct shng_base_dir as [d|]; [now injection Hbase as ->|].
    unfold lift. now rewrite Hbase. }
  unfold mbind at 1, M_bind at 1. rewrite Hb.
  unfold mbind at 1, M_bind at 1, modify at 1.
  unfold mbind at 1, M_bind at 1.
  destruct (isdir rt (path_join base_dir _uf_subdir)).
  - unfold mbind at 1, M_bind at 1, lift. rewrite Hwrk.
    unfold mret at 1, M_ret at 1. unfold mbind at 1, M_bind at 1, modify at 1.
    unfold mbind at 1, M_bind at 1, get at 1. simpl.
    now rewrite collect_spec.
  - injection Hwrk as <-. reflexivity.
Qed.

(** C6, amended.  Let [wrk] be the listing of [<base_dir>/functions] at
    initialization time (empty when that is no directory), every name
    derived from it being one the model follows.  [init_lib] ends, and it
    returns when no module is named [m] or [modulename]; afterwards the
    registry is sorted in ascending order and holds exactly the parts
    before the first dot of the listed names that end in [.py].  When the
    listing has no duplicates and no such file name has a dot in its stem,
    the registry has no duplicates and holds exactly the extension-stripped
    base names. *)
Theorem init_lib_registry (shng_base_dir : option string) (σ : state)
    (base_dir : string) (wrk : list string) :
  match shng_base_dir with Some d => Return d | None => getcwd rt end
    = Return base_dir ->
  (if isdir rt (path_join base_dir _uf_subdir)
   then listdir rt (path_join base_dir _uf_subdir) else Return [])
    = Return wrk ->
  (forall f, f ∈ wrk -> endswith f ".py" = true ->
             user_name (before_dot f) = true) ->
  exists o σ',
    init_lib shng_base_dir σ = Some (o, σ') /\
    ((forall f, f ∈ wrk -> endswith f ".py" = true ->
                before_dot f <> "m" /\ before_dot f <> "modulename") ->
     o = Return tt) /\
    _func_dir σ' = Some (path_join base_dir _uf_subdir) /\
    StronglySorted String.le (_user_modules σ') /\
    (forall n, n ∈ _user_modules σ' <->
               exists f, f ∈ wrk /\ endswith f ".py" = true /\ n = before_dot f) /\
    (NoDup wrk ->
     (forall f, f ∈ wrk -> endswith f ".py" = true ->
                no_dot (strip_py f) = true) ->
     NoDup (_user_modules σ') /\
     forall n, n ∈ _user_modules σ' <->
               exists f, f ∈ wrk /\ endswith f ".py" = true /\ n = strip_py f).
Proof.
  intros Hbase Hwrk Huser.
  rewrite (init_lib_run _ _ _ _ Hbase Hwrk).
  destruct (import_each_ends (sorted (names_of wrk))
              (set_user_modules (sorted (names_of wrk))
                 (set_func_dir (path_join base_dir _uf_subdir) σ)))
    as (o & σ' & Hrun & Hreg & Hdir & Hret).
  { intros m Hm. apply elem_of_sorted, elem_of_names_of in Hm as (f & Hf & Hpy & ->).
    now apply Huser. }
  exists o, σ'. split; [exact Hrun|]. simpl in Hreg, Hdir. rewrite Hreg, Hdir.
  split.
  { intros Hplain.
    apply Hret; intros (f & Hf & Hpy & Heq)%elem_of_sorted%elem_of_names_of;
      destruct (Hplain f Hf Hpy); congruence. }
  split; [reflexivity|]. split; [apply StronglySorted_merge_sort; apply _|].
  split.
  - intros n. now rewrite elem_of_sorted, elem_of_names_of.
  - intros Hnd Hstem. split.
    + unfold sorted. rewrite merge_sort_Permutation. unfold names_of.
      apply NoDup_fmap_2_strong.
      * intros f g Hf Hg Heq.
        apply list_elem_of_In, filter_In in Hf as [Hf Hfpy].
        apply list_elem_of_In, filter_In in Hg as [Hg Hgpy].
        apply list_elem_of_In in Hf, Hg.
        rewrite !before_dot_strip_py in Heq by auto.
        now apply strip_py_inj.
      * apply NoDup_ListNoDup, List.NoDup_filter, NoDup_ListNoDup, Hnd.
    + intros n. rewrite elem_of_sorted, elem_of_names_of.
      split; intros (f & Hf & Hpy & ->); exists f; (split; [exact Hf|]);
        (split; [exact Hpy|]); [|symmetry]; now apply before_dot_strip_py, Hstem.
Qed.

(** *** [import_user_module] and the metadata placeholders *)

(** X12.  For a module whose name is no local of [import_user_module], a
    successful import writes the placeholder for each metadata attribute
    that the module object lacks into that object, leaves every other
    attribute and every other module object as the import left them, and
    leaves a module that defines both attributes unchanged, logging its
    values. *)
Theorem import_writes_placeholders (m : string) (σ : state) (h : handle)
    (hp : gmap handle (gmap string pyval)) :
  user_name m = true ->
  m <> "m" -> m <> "importlib" -> m <> "modulename" ->
  import_module rt (_uf_subdir +:+ "." +:+ m) (heap σ) = (Return h, hp) ->
  exists σ',
    import_user_module m σ = Some (Return true, σ') /\
    bound σ' !! m = Some h /\
    (module_attrs hp h !! "_VERSION" = None ->
     module_attrs (heap σ') h !! "_VERSION" = Some (VStr "?.?.?")) /\
    (module_attrs hp h !! "_DESCRIPTION" = None ->
     module_attrs (heap σ') h !! "_DESCRIPTION" = Some (VStr "?")) /\
    (forall attr v, module_attrs hp h !! attr = Some v ->
                    module_attrs (heap σ') h !! attr = Some v) /\
    (forall attr, attr <> "_VERSION" -> attr <> "_DESCRIPTION" ->
                  module_attrs (heap σ') h !! attr = module_attrs hp h !! attr) /\
    (forall h', h' <> h -> heap σ' !! h' = hp !! h') /\
    (forall v d, module_attrs hp h !! "_VERSION" = Some v ->
                 module_attrs hp h !! "_DESCRIPTION" = Some d ->
                 heap σ' = hp /\
                 log σ' = log σ ++
                   [Log NOTICE [Txt "Imported userfunctions from '"; Val (VStr m);
                                Txt "' v"; Val v; Txt " - "; Val d]]).
Proof.
  intros Hm H1 H2 H3 Himp. exists (imported m h h hp σ).
  split.
  { apply import_user_module_ok; [exact Hm|exact Himp|].
    now apply denoted_import_plain. }
  split; [apply lookup_insert_eq|]. simpl.
  split; [|split; [|split; [|split; [|split]]]].
  - intros Hv. rewrite !fill_lookup, Hv. reflexivity.
  - intros Hd. rewrite !fill_lookup, Hd. reflexivity.
  - intros attr v Hattr. now rewrite !fill_lookup, Hattr.
  - intros attr Hv Hd. rewrite !fill_lookup.
    destruct (module_attrs hp h !! attr); [reflexivity|].
    destruct (decide ("_VERSION" = attr)); [congruence|].
    destruct (decide ("_DESCRIPTION" = attr)); [congruence|reflexivity].
  - intros h' Hne. now rewrite !fill_frame.
  - intros v d Hv Hd. rewrite Hv, Hd. simpl.
    rewrite (fill_present h "_VERSION") by (now rewrite Hv).
    rewrite (fill_present h "_DESCRIPTION") by (now rewrite Hd).
    now split.
Qed.

(** C10.  A module named [m] is imported and bound, but the snippets read
    and assign [m._VERSION] on the parameter [m], a [str]: when the module
    lacks [_VERSION], [import_user_module] raises [AttributeError] and
    writes no placeholder into the module object. *)
Theorem import_shadowed_by_parameter (σ : state) (h : handle)
    (hp : gmap handle (gmap string pyval)) :
  user_name "m" = true ->
  import_module rt (_uf_subdir +:+ "." +:+ "m") (heap σ) = (Return h, hp) ->
  module_attrs hp h !! "_VERSION" = None ->
  exists σ',
    import_user_module "m" σ =
      Some (Raise (str_attribute_error "_VERSION"), σ') /\
    bound σ' !! "m" = Some h /\
    heap σ' = hp /\
    module_attrs (heap σ') h !! "_VERSION" = None.
Proof.
  intros Hm Himp Hv. exists (import_stuck "m" h hp σ).
  split; [now apply (import_user_module_stuck _ _ _ _ "m")|].
  split; [apply lookup_insert_eq|]. split; [reflexivity|exact Hv].
Qed.

(** X13.  A module named [importlib] is imported and bound, but the snippets
    read and assign the attributes of the standard library's [importlib]:
    the placeholders go there and the imported module object stays as the
    import left it. *)
Lemma import_shadowed_by_importlib (σ : state) (h : handle)
    (hp : gmap handle (gmap string pyval)) :
  user_name "importlib" = true ->
  import_module rt (_uf_subdir +:+ "." +:+ "importlib") (heap σ) = (Return h, hp) ->
  h <> importlib_module rt ->
  exists σ',
    import_user_module "importlib" σ = Some (Return true, σ') /\
    heap σ' !! h = hp !! h /\
    (module_attrs hp (importlib_module rt) !! "_VERSION" = None ->
     module_attrs (heap σ') (importlib_module rt) !! "_VERSION"
       = Some (VStr "?.?.?")).
Proof.
  intros Hm Himp Hne.
  exists (imported "importlib" h (importlib_module rt) hp σ).
  split; [now apply import_user_module_ok|]. simpl.
  split; [now rewrite !fill_frame|].
  intros Hv. now rewrite !fill_lookup, Hv.
Qed.

(** *** [reload] *)

Lemma bool_passthrough (c : M bool) σ :
  (b ← c; if b : bool then mret true else mret false) σ = c σ.
Proof.
  unfold mbind, M_bind. destruct (c σ) as [[[[|]|e] σ']|]; reflexivity.
Qed.

(** The snippet of [reload] changes nothing but the heap. *)
Lemma exec_reload_frame userlib σ o σ1 :
  exec_reload userlib σ = Some (o, σ1) -> σ1 = set_heap (heap σ1) σ.
Proof.
  unfold exec_reload, mbind, M_bind, resolve, call_reload.
  destruct (find_local (reload_locals userlib) userlib) as [[s|h]|].
  - intros H. injection H as <- <-. now destruct σ.
  - destruct (reload_module rt h (heap σ)) as [[[]|e] hp]; intros H;
      injection H as <- <-; now destruct σ.
  - destruct (bound σ !! userlib) as [h|].
    + destruct (reload_module rt h (heap σ)) as [[[]|e] hp]; intros H;
        injection H as <- <-; now destruct σ.
    + intros H. injection H as <- <-. now destruct σ.
Qed.

Lemma exec_reload_unbound userlib σ :
  userlib <> "userlib" -> userlib <> "importlib" ->
  bound σ !! userlib = None ->
  exec_reload userlib σ = Some (Raise (name_error userlib), σ).
Proof.
  intros H1 H2 Hb. unfold exec_reload, mbind, M_bind, resolve, find_local,
    reload_locals. cbn [List.find fst snd].
  destruct (String.eqb_spec "userlib" userlib); [congruence|].
  destruct (String.eqb_spec "importlib" userlib); [congruence|].
  now rewrite Hb.
Qed.

(** *** What the operations log and keep *)

Lemma import_user_module_run m σ :
  user_name m = true ->
  exists o σ' recs,
    import_user_module m σ = Some (o, σ') /\
    _user_modules σ' = _user_modules σ /\ _func_dir σ' = _func_dir σ /\
    log σ' = log σ ++ recs /\
    (forall n, n <> m -> bound σ' !! n = bound σ !! n) /\
    (forall n, is_Some (bound σ !! n) -> is_Some (bound σ' !! n)) /\
    match o with
    | Return true =>
        is_Some (bound σ' !! m) /\ exists r, recs = [r] /\ is_error r = false
    | Return false => bound σ' = bound σ /\ exists e, recs = [import_error m e]
    | Raise e =>
        (m = "m" \/ m = "modulename") /\ e = str_attribute_error "_VERSION" /\
        recs = [] /\ is_Some (bound σ' !! m)
    end.
Proof.
  intros Hm.
  assert (Hins : forall h n, is_Some (bound σ !! n) ->
                             is_Some (<[m := h]> (bound σ) !! n)).
  { intros h n Hn. destruct (decide (n = m)) as [->|Hne].
    - rewrite lookup_insert_eq. now eexists.
    - now rewrite lookup_insert_ne. }
  destruct (import_module rt (_uf_subdir +:+ "." +:+ m) (heap σ))
    as [[h|e] hp] eqn:Himp.
  - destruct (denoted (import_locals m) m h) as [s|t] eqn:Ht.
    + exists (Raise (str_attribute_error "_VERSION")), (import_stuck m h hp σ), [].
      split; [now apply (import_user_module_stuck _ _ _ _ s)|].
      split; [reflexivity|]. split; [reflexivity|].
      split; [simpl; now rewrite app_nil_r|].
      split; [intros n Hn; simpl; now rewrite lookup_insert_ne|].
      split; [exact (Hins h)|].
      split.
      { rewrite denoted_import in Ht.
        destruct (String.eqb_spec "m" m); [now left|].
        destruct (String.eqb "importlib" m); [discriminate|].
        destruct (String.eqb_spec "modulename" m); [now right|discriminate]. }
      split; [reflexivity|]. split; [reflexivity|].
      simpl. rewrite lookup_insert_eq. now eexists.
    + exists (Return true), (imported m h t hp σ). eexists.
      split; [now apply import_user_module_ok|].
      split; [reflexivity|]. split; [reflexivity|].
      split; [reflexivity|].
      split; [intros n Hn; simpl; now rewrite lookup_insert_ne|].
      split; [exact (Hins h)|].
      split; [simpl; rewrite lookup_insert_eq; now eexists|].
      eexists. split; reflexivity.
  - exists (Return false), (import_failed m e hp σ), [import_error m e].
    split; [now apply import_user_module_failed|].
    split; [reflexivity|]. split; [reflexivity|]. split; [reflexivity|].
    split; [reflexivity|]. split; [intros n Hn; exact Hn|].
    split; [reflexivity|]. now exists e.
Qed.

Lemma import_each_run l : forall σ,
  (forall m, m ∈ l -> user_name m = true) ->
  exists o σ' recs,
    import_each l σ = Some (o, σ') /\
    _user_modules σ' = _user_modules σ /\ _func_dir σ' = _func_dir σ /\
    log σ' = log σ ++ recs /\
    (forall n, n ∉ l -> bound σ' !! n = bound σ !! n) /\
    (forall n, is_Some (bound σ !! n) -> is_Some (bound σ' !! n)) /\
    (o = Return tt ->
     forall n, n ∈ l ->
       is_Some (bound σ' !! n) \/ exists e, import_error n e ∈ recs) /\
    ("m" ∉ l -> "modulename" ∉ l -> o = Return tt).
Proof.
  induction l as [|m l IH]; intros σ Hl.
  - exists (Return tt), σ, []. rewrite app_nil_r.
    split; [reflexivity|]. split; [reflexivity|]. split; [reflexivity|].
    split; [reflexivity|]. split; [intros n _; reflexivity|].
    split; [tauto|]. split; [|reflexivity].
    intros _ n Hn. now apply elem_of_nil in Hn.
  - destruct (import_user_module_run m σ)
      as (o1 & σ1 & recs1 & H1 & Hreg1 & Hdir1 & Hlog1 & Hb1 & Hmono1 & Hcase1).
    { apply Hl. now left. }
    destruct (IH σ1)
      as (o2 & σ2 & recs2 & H2 & Hreg2 & Hdir2 & Hlog2 & Hb2 & Hmono2 & Hacc2 & Hret2).
    { intros m' Hm'. apply Hl. now right. }
    simpl. unfold mbind, M_bind. rewrite H1. destruct o1 as [b|e].
    + exists o2, σ2, (recs1 ++ recs2). split; [exact H2|].
      split; [congruence|]. split; [congruence|].
      split; [now rewrite Hlog2, Hlog1, app_assoc|].
      split.
      { intros n Hn. apply not_elem_of_cons in Hn as [Hne Hn].
        now rewrite Hb2, Hb1. }
      split; [intros n Hn; now apply Hmono2, Hmono1|].
      split.
      * intros Ho n Hn. apply elem_of_cons in Hn as [->|Hn].
        -- destruct b.
           ++ left. apply Hmono2. apply Hcase1.
           ++ right. destruct Hcase1 as (_ & e & ->). exists e.
              apply elem_of_app. left. now left.
        -- destruct (Hacc2 Ho n Hn) as [Hs|[e He]]; [now left|].
           right. exists e. apply elem_of_app. now right.
      * intros Hm Hmn. apply Hret2.
        -- intros Hin. apply Hm. now right.
        -- intros Hin. apply Hmn. now right.
    + exists (Raise e), σ1, recs1. split; [reflexivity|]. split; [exact Hreg1|].
      split; [exact Hdir1|]. split; [exact Hlog1|].
      split.
      { intros n Hn. apply not_elem_of_cons in Hn as [Hne Hn]. now apply Hb1. }
      split; [exact Hmono1|]. split; [discriminate|].
      intros Hm Hmn. destruct Hcase1 as ([->| ->] & _).
      * destruct Hm. now left.
      * destruct Hmn. now left.
Qed.

Lemma import_each_app l1 l2 : forall σ σ1,
  import_each l1 σ = Some (Return tt, σ1) ->
  import_each (l1 ++ l2) σ = import_each l2 σ1.
Proof.
  induction l1 as [|m l1 IH]; intros σ σ1.
  - intros H. now injection H as <-.
  - simpl. unfold mbind, M_bind.
    destruct (import_user_module m σ) as [[[b|e] σ2]|]; try discriminate.
    apply IH.
Qed.

Lemma exec_reload_total userlib σ :
  exists o σ1, exec_reload userlib σ = Some (o, σ1).
Proof.
  unfold exec_reload, mbind, M_bind, resolve, call_reload.
  destruct (find_local (reload_locals userlib) userlib) as [[s|h]|].
  - now eexists _, _.
  - destruct (reload_module rt h (heap σ)) as [[[]|e] hp]; now eexists _, _.
  - destruct (bound σ !! userlib) as [h|].
    + destruct (reload_module rt h (heap σ)) as [[[]|e] hp]; now eexists _, _.
    + now eexists _, _.
Qed.

(** [reload] once the registry is known to hold the name. *)
Lemma reload_registered userlib σ o1 σ1 :
  userlib ∈ _user_modules σ -> user_name userlib = true ->
  exec_reload userlib σ = Some (o1, σ1) ->
  reload userlib σ =
  match o1 with
  | Return _ => Some (Return true, add_log (reloaded_notice userlib) σ1)
  | Raise e =>
      if String.eqb (exn_str e) ("name '" +:+ userlib +:+ "' is not defined")
      then import_user_module userlib (add_log (not_loaded_warning userlib) σ1)
      else Some (Return false, add_log (reload_error userlib e) σ1)
  end.
Proof.
  intros Hin Huser Hexec.
  unfold reload. unfold mbind at 1, M_bind at 1, get at 1.
  rewrite bool_decide_eq_true_2 by exact Hin. rewrite Huser. simpl.
  unfold mbind at 1, M_bind at 1, try at 1. rewrite Hexec.
  destruct o1 as [[]|e]; [reflexivity|].
  destruct (String.eqb _ _); [|reflexivity].
  unfold mbind at 1, M_bind at 1, logger at 1, modify at 1.
  apply bool_passthrough.
Qed.

Lemma reload_run lib σ :
  (lib ∈ _user_modules σ -> user_name lib = true) ->
  exists o σ' recs,
    reload lib σ = Some (o, σ') /\
    _user_modules σ' = _user_modules σ /\ _func_dir σ' = _func_dir σ /\
    log σ' = log σ ++ recs /\
    (forall n, n <> lib -> bound σ' !! n = bound σ !! n) /\
    match o with
    | Return b =>
        recs <> [] /\ (b = false <-> Exists (fun r => is_error r = true) recs)
    | Raise _ => lib = "m" \/ lib = "modulename"
    end.
Proof.
  intros Huser. destruct (decide (lib ∈ _user_modules σ)) as [Hin|Hnot].
  - specialize (Huser Hin).
    destruct (exec_reload_total lib σ) as (o1 & σ1 & Hexec).
    rewrite (reload_registered _ _ _ _ Hin Huser Hexec).
    pose proof (exec_reload_frame _ _ _ _ Hexec) as Hfr.
    assert (Hreg : _user_modules σ1 = _user_modules σ) by (rewrite Hfr; reflexivity).
    assert (Hdir : _func_dir σ1 = _func_dir σ) by (rewrite Hfr; reflexivity).
    assert (Hlog : log σ1 = log σ) by (rewrite Hfr; reflexivity).
    assert (Hbound : bound σ1 = bound σ) by (rewrite Hfr; reflexivity).
    destruct o1 as [[]|e].
    + exists (Return true), (add_log (reloaded_notice lib) σ1), [reloaded_notice lib].
      split; [reflexivity|]. split; [exact Hreg|]. split; [exact Hdir|].
      split; [simpl; now rewrite Hlog|].
      split; [intros n _; simpl; now rewrite Hbound|].
      split; [discriminate|]. split; [discriminate|].
      intros H. apply Exists_cons in H as [H|H]; [discriminate|].
      now apply Exists_nil in H.
    + destruct (String.eqb _ _).
      * destruct (import_user_module_run lib (add_log (not_loaded_warning lib) σ1) Huser)
          as (o & σ' & recs & Hrun & Hreg' & Hdir' & Hlog' & Hb' & _ & Hcase).
        exists o, σ', (not_loaded_warning lib :: recs).
        split; [exact Hrun|]. split; [now rewrite Hreg'|].
        split; [now rewrite Hdir'|].
        split; [rewrite Hlog'; simpl; now rewrite Hlog, <- app_assoc|].
        split; [intros n Hn; rewrite (Hb' n Hn); simpl; now rewrite Hbound|].
        destruct o as [[|]|e'].
        -- destruct Hcase as (_ & r & -> & Hr). split; [discriminate|].
           split; [discriminate|]. intros H.
           apply Exists_cons in H as [H|H]; [discriminate|].
           apply Exists_cons in H as [H|H]; [congruence|].
           now apply Exists_nil in H.
        -- destruct Hcase as (_ & e' & ->). split; [discriminate|].
           split; [|reflexivity]. intros _. right. now left.
        -- apply Hcase.
      * exists (Return false), (add_log (reload_error lib e) σ1), [reload_error lib e].
        split; [reflexivity|]. split; [exact Hreg|]. split; [exact Hdir|].
        split; [simpl; now rewrite Hlog|].
        split; [intros n _; simpl; now rewrite Hbound|].
        split; [discriminate|]. split; [|reflexivity]. intros _. now left.
  - exists (Return false), (add_log (unknown_error lib) σ), [unknown_error lib].
    split.
    { unfold reload, mbind, M_bind, get.
      rewrite bool_decide_eq_false_2 by exact Hnot. reflexivity. }
    split; [reflexivity|]. split; [reflexivity|]. split; [reflexivity|].
    split; [reflexivity|]. split; [discriminate|].
    split; [|reflexivity]. intros _. now left.
Qed.

Lemma reload_each_run l : forall res σ,
  (forall lib, lib ∈ l -> lib ∈ _user_modules σ -> user_name lib = true) ->
  exists o σ' recs,
    reload_each l res σ = Some (o, σ') /\
    _user_modules σ' = _user_modules σ /\ _func_dir σ' = _func_dir σ /\
    log σ' = log σ ++ recs /\
    (forall n, n ∉ l -> bound σ' !! n = bound σ !! n) /\
    match o with
    | Return b =>
        (length l <= length recs)%nat /\
        (b = true <-> res = true /\ Forall (fun r => is_error r = false) recs)
    | Raise _ => "m" ∈ l \/ "modulename" ∈ l
    end.
Proof.
  induction l as [|lib l IH]; intros res σ Hl.
  - exists (Return res), σ, []. rewrite app_nil_r.
    split; [reflexivity|]. split; [reflexivity|]. split; [reflexivity|].
    split; [reflexivity|]. split; [intros n _; reflexivity|].
    split; [reflexivity|]. split; [intros ->; now split|tauto].
  - destruct (reload_run lib σ)
      as (o1 & σ1 & recs1 & H1 & Hreg1 & Hdir1 & Hlog1 & Hb1 & Hcase1).
    { apply Hl. now left. }
    simpl. unfold mbind, M_bind. rewrite H1. destruct o1 as [b|e].
    + destruct (IH (if b then res else false) σ1)
        as (o2 & σ2 & recs2 & H2 & Hreg2 & Hdir2 & Hlog2 & Hb2 & Hcase2).
      { intros lib' Hin' Hreg'. apply Hl; [now right|]. now rewrite <- Hreg1. }
      exists o2, σ2, (recs1 ++ recs2). split; [exact H2|].
      split; [congruence|]. split; [congruence|].
      split; [now rewrite Hlog2, Hlog1, app_assoc|].
      split.
      { intros n Hn. apply not_elem_of_cons in Hn as [Hne Hn].
        now rewrite Hb2, Hb1. }
      destruct o2 as [b2|e2].
      * destruct Hcase1 as (Hne1 & Herr1). destruct Hcase2 as (Hlen2 & Hres2).
        split.
        { rewrite List.length_app. simpl. destruct recs1; [congruence|]. simpl. lia. }
        rewrite Hres2, Forall_app. destruct b.
        -- assert (Hok : Forall (fun r => is_error r = false) recs1).
           { apply Forall_forall. intros r Hr.
             destruct (is_error r) eqn:Er; [|reflexivity].
             assert (true = false); [|discriminate]. apply Herr1.
             apply Exists_exists. now exists r. }
           tauto.
        -- split; [intros [? _]; discriminate|]. intros (_ & Hall & _).
           destruct Herr1 as [Herr1 _]. specialize (Herr1 eq_refl).
           apply Exists_exists in Herr1 as (r & Hr & Er).
           rewrite Forall_forall in Hall. specialize (Hall r Hr). congruence.
      * destruct Hcase2 as [H|H]; [left|right]; now right.
    + exists (Raise e), σ1, recs1. split; [reflexivity|]. split; [exact Hreg1|].
      split; [exact Hdir1|]. split; [exact Hlog1|].
      split.
      { intros n Hn. apply not_elem_of_cons in Hn as [Hne Hn]. now apply Hb1. }
      destruct Hcase1 as [-> | ->]; [left|right]; now left.
Qed.

Lemma warn_each_run l : forall σ,
  warn_each l σ =
  Some (Return tt,
        State (_func_dir σ) (_user_modules σ) (_uf_version σ) (_uf_description σ)
          (bound σ) (heap σ) (log σ ++ (listed <$> l))).
Proof.
  induction l as [|lib l IH]; intros σ.
  - simpl. rewrite app_nil_r. now destruct σ.
  - simpl. unfold mbind, M_bind, logger, modify. rewrite IH. simpl.
    now rewrite <- app_assoc.
Qed.

(** *** The paths of [reload] *)

(** C7.  [reload] of a name that is not in the registry logs an error and
    returns [False] without raising.  For a registered name that is bound
    to nothing (and is no local of [reload]), [reload] logs a warning and
    then does what [import_user_module] does: it returns the result of the
    import, unless the module is named [m] or [modulename]; for these two
    names, when the import succeeds, [import_user_module] raises
    [AttributeError], and so does [reload], which returns no result.  When
    the snippet raises any other exception, [reload] logs an error and
    returns [False]; the registry and every binding are as before, so the
    name denotes the module object it denoted, and nothing but the heap,
    which is as the failed reload left it, has changed. *)
Theorem reload_paths (userlib : string) (σ : state) :
  (userlib ∉ _user_modules σ ->
   reload userlib σ = Some (Return false, add_log (unknown_error userlib) σ)) /\
  (userlib ∈ _user_modules σ -> user_name userlib = true ->
   userlib <> "userlib" -> userlib <> "importlib" ->
   bound σ !! userlib = None ->
   reload userlib σ =
     import_user_module userlib (add_log (not_loaded_warning userlib) σ) /\
   (userlib <> "m" -> userlib <> "modulename" ->
    exists b σ' recs,
      reload userlib σ = Some (Return b, σ') /\
      import_user_module userlib (add_log (not_loaded_warning userlib) σ) =
        Some (Return b, σ') /\
      log σ' = log σ ++ not_loaded_warning userlib :: recs) /\
   (userlib = "m" \/ userlib = "modulename" ->
    forall h hp,
      import_module rt (_uf_subdir +:+ "." +:+ userlib) (heap σ) = (Return h, hp) ->
      exists σ',
        reload userlib σ = Some (Raise (str_attribute_error "_VERSION"), σ') /\
        bound σ' !! userlib = Some h /\
        log σ' = log σ ++ [not_loaded_warning userlib])) /\
  (userlib ∈ _user_modules σ -> user_name userlib = true ->
   forall e σ1, exec_reload userlib σ = Some (Raise e, σ1) ->
     (exn_str e = "name '" +:+ userlib +:+ "' is not defined" ->
      reload userlib σ =
        import_user_module userlib (add_log (not_loaded_warning userlib) σ1)) /\
     (exn_str e <> "name '" +:+ userlib +:+ "' is not defined" ->
      reload userlib σ =
        Some (Return false, add_log (reload_error userlib e) σ1) /\
      σ1 = set_heap (heap σ1) σ /\
      _user_modules σ1 = _user_modules σ /\ bound σ1 = bound σ /\
      (heap σ1 = heap σ -> σ1 = σ))).
Proof.
  split; [|split].
  - intros Hnot. unfold reload, mbind, M_bind, get.
    rewrite bool_decide_eq_false_2 by exact Hnot. reflexivity.
  - intros Hin Huser H1 H2 Hb.
    assert (Hfall : reload userlib σ =
              import_user_module userlib (add_log (not_loaded_warning userlib) σ)).
    { rewrite (reload_registered _ _ _ _ Hin Huser (exec_reload_unbound _ _ H1 H2 Hb)).
      unfold name_error. simpl. now rewrite String.eqb_refl. }
    split; [exact Hfall|]. split.
    + intros Hm Hmn.
      destruct (import_user_module_run userlib
                  (add_log (not_loaded_warning userlib) σ) Huser)
        as (o & σ' & recs & Hrun & _ & _ & Hlog & _ & _ & Hcase).
      destruct o as [b|e].
      * exists b, σ', recs. rewrite Hfall. split; [exact Hrun|].
        split; [exact Hrun|]. rewrite Hlog. simpl. now rewrite <- app_assoc.
      * destruct Hcase as ([->| ->] & _); congruence.
    + intros Hname h hp Himp.
      exists (import_stuck userlib h hp (add_log (not_loaded_warning userlib) σ)).
      rewrite Hfall. split.
      * destruct Hname as [->| ->].
        -- now apply (import_user_module_stuck _ _ _ _ "m").
        -- now apply (import_user_module_stuck _ _ _ _
                        (_uf_subdir +:+ "." +:+ "modulename")).
      * split; [simpl; apply lookup_insert_eq|reflexivity].
  - intros Hin Huser e σ1 Hexec.
    rewrite (reload_registered _ _ _ _ Hin Huser Hexec). split; intros Hmsg.
    + apply String.eqb_eq in Hmsg. now rewrite Hmsg.
    + apply String.eqb_neq in Hmsg. rewrite Hmsg.
      pose proof (exec_reload_frame _ _ _ _ Hexec) as Hfr.
      split; [reflexivity|]. split; [exact Hfr|].
      split; [now rewrite Hfr|]. split; [now rewrite Hfr|].
      intros Hheap. rewrite Hfr, Hheap. apply set_heap_same.
Qed.

(** *** [reload] of a loaded module *)

(** X14.  A registered module that is bound to a module object, and whose
    name is no local of [reload], is reloaded in place: when the reload
    returns, [reload] logs a notice and returns [True], and nothing but the
    heap, which is as the reload left it, has changed. *)
Theorem reload_bound_module (userlib : string) (σ : state) (h : handle)
    (hp : gmap handle (gmap string pyval)) :
  userlib ∈ _user_modules σ -> user_name userlib = true ->
  userlib <> "userlib" -> userlib <> "importlib" ->
  bound σ !! userlib = Some h ->
  reload_module rt h (heap σ) = (Return tt, hp) ->
  reload userlib σ =
    Some (Return true, add_log (reloaded_notice userlib) (set_heap hp σ)).
Proof.
  intros Hin Huser H1 H2 Hb Hrel.
  apply (reload_registered _ _ (Return tt)); [exact Hin|exact Huser|].
  unfold exec_reload, mbind, M_bind, resolve, find_local, reload_locals.
  cbn [List.find fst snd].
  destruct (String.eqb_spec "userlib" userlib); [congruence|].
  destruct (String.eqb_spec "importlib" userlib); [congruence|].
  rewrite Hb. unfold call_reload. now rewrite Hrel.
Qed.

(** X15.  A registered module named like a local of [reload] is not the one
    the snippet reloads. Named [userlib], the snippet passes the parameter,
    a [str], to [importlib.reload]: [reload] logs the [TypeError] and
    returns [False], whatever the name is bound to. Named [importlib], the
    snippet reloads the standard library's [importlib], and [reload] reports
    the user module as reloaded. *)
Theorem reload_shadowed_by_locals (userlib : string) (σ : state) :
  userlib ∈ _user_modules σ -> user_name userlib = true ->
  (userlib = "userlib" ->
   reload userlib σ =
     Some (Return false, add_log (reload_error userlib reload_type_error) σ)) /\
  (userlib = "importlib" ->
   forall hp, reload_module rt (importlib_module rt) (heap σ) = (Return tt, hp) ->
     reload userlib σ =
       Some (Return true, add_log (reloaded_notice userlib) (set_heap hp σ))).
Proof.
  intros Hin Huser. split.
  - intros ->.
    now rewrite (reload_registered _ _ (Raise reload_type_error) σ Hin Huser).
  - intros -> hp Hrel.
    apply (reload_registered _ _ (Return tt)); [exact Hin|exact Huser|].
    unfold exec_reload, mbind, M_bind, resolve, find_local, reload_locals.
    cbn [List.find fst snd].
    destruct (String.eqb_spec "userlib" "importlib"); [discriminate|].
    destruct (String.eqb_spec "importlib" "importlib"); [|congruence].
    cbn [snd]. unfold call_reload. now rewrite Hrel.
Qed.

(** *** [reload_all] and [list_userlib_files] *)

(** X16.  [reload_all] on a registry of names that the model follows ends,
    and it returns unless a module is named [m] or [modulename]. It leaves
    the registry and the directory as they are, binds no name outside the
    registry and only adds records to the log: at least one, and at least
    one for each registered name (no module is skipped after a failure). Its
    result is [True] exactly when the registry is not empty and no record it
    logged is an error. *)
Theorem reload_all_result (σ : state) :
  (forall lib, lib ∈ _user_modules σ -> user_name lib = true) ->
  exists o σ' recs,
    reload_all σ = Some (o, σ') /\
    _user_modules σ' = _user_modules σ /\ _func_dir σ' = _func_dir σ /\
    log σ' = log σ ++ recs /\
    (forall n, n ∉ _user_modules σ -> bound σ' !! n = bound σ !! n) /\
    (forall b, o = Return b ->
       recs <> [] /\ (length (_user_modules σ) <= length recs)%nat /\
       (b = true <->
        _user_modules σ <> [] /\ Forall (fun r => is_error r = false) recs)) /\
    ("m" ∉ _user_modules σ -> "modulename" ∉ _user_modules σ ->
     exists b, o = Return b).
Proof.
  intros Huser. unfold reload_all, mbind, M_bind, get.
  destruct (_user_modules σ) as [|lib l] eqn:Hreg.
  - exists (Return false), (add_log nothing_to_reload σ), [nothing_to_reload].
    split; [reflexivity|]. split; [exact Hreg|]. split; [reflexivity|].
    split; [reflexivity|]. split; [reflexivity|]. split.
    + intros b Hb. injection Hb as <-. split; [discriminate|].
      split; [simpl; lia|]. split; [discriminate|]. now intros [? _].
    + intros _ _. now exists false.
  - destruct (reload_each_run (lib :: l) true σ)
      as (o & σ' & recs & Hrun & Hreg' & Hdir' & Hlog' & Hb' & Hcase).
    { intros lib' Hin _. apply Huser. exact Hin. }
    exists o, σ', recs. split; [exact Hrun|]. split; [congruence|].
    split; [exact Hdir'|]. split; [exact Hlog'|]. split; [exact Hb'|]. split.
    + intros b ->. destruct Hcase as (Hlen & Hres). split.
      { intros ->. simpl in Hlen. lia. }
      split; [exact Hlen|]. rewrite Hres. split; [now intros [_ ?]|tauto].
    + intros Hm Hmn. destruct o as [b|e]; [now exists b|]. tauto.
Qed.

(** X17.  [list_userlib_files] returns, having logged one warning for each
    entry of the registry, in the order of the registry, and changed nothing
    else. *)
Theorem list_userlib_files_logs (σ : state) :
  list_userlib_files σ =
    Some (Return tt,
          State (_func_dir σ) (_user_modules σ) (_uf_version σ)
            (_uf_description σ) (bound σ) (heap σ)
            (log σ ++ (listed <$> _user_modules σ))).
Proof.
  unfold list_userlib_files, mbind, M_bind, get. apply warn_each_run.
Qed.

(** *** [init_lib] and the modules of the registry *)

(** X18.  Under the assumptions of C6 on the directory, [init_lib] only adds
    records to the log and binds no name outside the registry it builds;
    afterwards [get_uf_dir] returns [<base_dir>/functions], whether that is
    a directory or not. When [init_lib] returns, every name of the registry
    is bound to a module object or has the error record of its failed import
    in the log. *)
Theorem init_lib_accounts_for_modules (shng_base_dir : option string)
    (σ : state) (base_dir : string) (wrk : list string) :
  match shng_base_dir with Some d => Return d | None => getcwd rt end
    = Return base_dir ->
  (if isdir rt (path_join base_dir _uf_subdir)
   then listdir rt (path_join base_dir _uf_subdir) else Return [])
    = Return wrk ->
  (forall f, f ∈ wrk -> endswith f ".py" = true ->
             user_name (before_dot f) = true) ->
  exists o σ' recs,
    init_lib shng_base_dir σ = Some (o, σ') /\
    log σ' = log σ ++ recs /\
    get_uf_dir σ' = Some (Return (Some (path_join base_dir _uf_subdir)), σ') /\
    (forall n, n ∉ _user_modules σ' -> bound σ' !! n = bound σ !! n) /\
    (o = Return tt ->
     forall n, n ∈ _user_modules σ' ->
       is_Some (bound σ' !! n) \/ exists e, import_error n e ∈ recs).
Proof.
  intros Hbase Hwrk Huser.
  rewrite (init_lib_run _ _ _ _ Hbase Hwrk).
  destruct (import_each_run (sorted (names_of wrk))
              (set_user_modules (sorted (names_of wrk))
                 (set_func_dir (path_join base_dir _uf_subdir) σ)))
    as (o & σ' & recs & Hrun & Hreg & Hdir & Hlog & Hb & _ & Hacc & _).
  { intros m Hm. apply elem_of_sorted, elem_of_names_of in Hm as (f & Hf & Hpy & ->).
    now apply Huser. }
  exists o, σ', recs. split; [exact Hrun|]. split; [exact Hlog|].
  simpl in Hreg, Hdir. split; [unfold get_uf_dir, get; now rewrite Hdir|].
  rewrite Hreg. split; [exact Hb|exact Hacc].
Qed.

(** X19.  With a file that gives the name [m] in the directory, and the
    import of [functions.m] succeeding, [init_lib] raises the
    [AttributeError] of [import_user_module]: the loop over the registry
    stops there, and no name sorted after [m] is imported. *)
Theorem init_lib_stops_at_m (shng_base_dir : option string)
    (σ : state) (base_dir : string) (wrk : list string) :
  match shng_base_dir with Some d => Return d | None => getcwd rt end
    = Return base_dir ->
  (if isdir rt (path_join base_dir _uf_subdir)
   then listdir rt (path_join base_dir _uf_subdir) else Return [])
    = Return wrk ->
  (forall f, f ∈ wrk -> endswith f ".py" = true ->
             user_name (before_dot f) = true) ->
  (exists f, f ∈ wrk /\ endswith f ".py" = true /\ before_dot f = "m") ->
  (forall hp, exists h hp',
     import_module rt (_uf_subdir +:+ "." +:+ "m") hp = (Return h, hp')) ->
  exists σ',
    init_lib shng_base_dir σ =
      Some (Raise (str_attribute_error "_VERSION"), σ') /\
    "m" ∈ _user_modules σ' /\ is_Some (bound σ' !! "m") /\
    forall n, ~ String.le n "m" -> bound σ' !! n = bound σ !! n.
Proof.
  intros Hbase Hwrk Huser (f & Hf & Hpy & Hfm) Himp.
  rewrite (init_lib_run _ _ _ _ Hbase Hwrk).
  set (l := sorted (names_of wrk)).
  set (σ0 := set_user_modules l (set_func_dir (path_join base_dir _uf_subdir) σ)).
  assert (Hl : forall m, m ∈ l -> user_name m = true).
  { intros m Hm. apply elem_of_sorted, elem_of_names_of in Hm as (g & Hg & Hgpy & ->).
    now apply Huser. }
  assert (Hm : "m" ∈ l).
  { apply elem_of_sorted, elem_of_names_of. exists f. now rewrite Hfm. }
  destruct (list_elem_of_split_l l "m" Hm) as (l1 & l2 & Hsplit & Hfirst).
  assert (Hsorted : StronglySorted String.le (l1 ++ "m" :: l2)).
  { rewrite <- Hsplit. apply StronglySorted_merge_sort; apply _. }
  assert (Hbefore : forall n, n ∈ l1 -> String.le n "m").
  { intros n Hn. apply (StronglySorted_app_1_elem_of _ _ _ _ _ Hsorted Hn).
    now left. }
  assert (Hmn : "modulename" ∉ l1).
  { intros Hin. apply Hbefore in Hin. vm_compute in Hin. exact Hin. }
  destruct (import_each_run l1 σ0)
    as (o1 & σ1 & recs1 & Hrun1 & Hreg1 & _ & _ & Hb1 & _ & _ & Hret1).
  { intros m' Hm'. apply Hl. rewrite Hsplit. apply elem_of_app. now left. }
  rewrite (Hret1 Hfirst Hmn) in Hrun1.
  destruct (Himp (heap σ1)) as (h & hp & Hh).
  exists (import_stuck "m" h hp σ1). split.
  { rewrite Hsplit, (import_each_app _ _ _ _ Hrun1). simpl.
    unfold mbind, M_bind.
    rewrite (import_user_module_stuck "m" σ1 h hp "m");
      [reflexivity| |exact Hh|reflexivity].
    apply Hl. exact Hm. }
  simpl. rewrite Hreg1. split; [exact Hm|].
  split; [rewrite lookup_insert_eq; now eexists|].
  intros n Hn. rewrite lookup_insert_ne.
  - rewrite Hb1; [reflexivity|]. intros Hin. now apply Hn, Hbefore.
  - intros <-. apply Hn. reflexivity.
Qed.

End Loader.

(** C6, as stated, fails: with [a.b.py] and [a.c.py] in the directory,
    [init_lib] returns with the registry [a, a], which has a duplicate and
    whose name [a] is the extension-stripped base name of neither file. *)
Lemma registry_may_repeat_names :
  ~ (forall (rt : runtime) (shng_base_dir : option string) (σ σ' : state)
            (d : string) (wrk : list string),
       init_lib rt shng_base_dir σ = Some (Return tt, σ') ->
       _func_dir σ' = Some d -> isdir rt d = true ->
       listdir rt d = Return wrk -> NoDup wrk ->
       StronglySorted String.le (_user_modules σ') /\
       NoDup (_user_modules σ') /\
       forall n, n ∈ _user_modules σ' ->
                 exists f, f ∈ wrk /\ endswith f ".py" = true /\ n = strip_py f).
Proof.
  intros H.
  destruct (init_lib (demo ["a.c.py"; "a.b.py"]) (Some "/usr/local/smarthome")
              (initial ∅)) as [[o σ']|] eqn:Hrun; vm_compute in Hrun;
    [|discriminate].
  injection Hrun as <- <-.
  edestruct (H (demo ["a.c.py"; "a.b.py"]) (Some "/usr/local/smarthome")
               (initial ∅)) as (_ & Hnd & _).
  - vm_compute. reflexivity.
  - reflexivity.
  - reflexivity.
  - reflexivity.
  - apply (bool_decide_unpack _). vm_compute. exact I.
  - apply NoDup_cons in Hnd as [Hin _]. apply Hin. now left.
Qed.

Lemma init_lib_registry_witness :
  exists σ',
    init_lib (demo ["b.py"; "a.py"; "notes.txt"]) (Some "/usr/local/smarthome")
      (initial ∅) = Some (Return tt, σ') /\
    _user_modules σ' = ["a"; "b"] /\ NoDup (_user_modules σ').
Proof.
  destruct (init_lib_registry (demo ["b.py"; "a.py"; "notes.txt"])
              (Some "/usr/local/smarthome") (initial ∅)
              "/usr/local/smarthome" ["b.py"; "a.py"; "notes.txt"])
    as (o & σ' & Hrun & Hret & _ & _ & _ & Hnd).
  - reflexivity.
  - reflexivity.
  - intros f Hf Hpy.
    repeat (apply elem_of_cons in Hf as [->|Hf]; [first [reflexivity|discriminate]|]).
    now apply elem_of_nil in Hf.
  - exists σ'. rewrite Hret in Hrun.
    + split; [exact Hrun|]. split.
      * vm_compute in Hrun. now injection Hrun as <-.
      * apply Hnd; [apply (bool_decide_unpack _); vm_compute; exact I|].
        intros f Hf Hpy.
        repeat (apply elem_of_cons in Hf as [->|Hf]; [first [reflexivity|discriminate]|]).
        now apply elem_of_nil in Hf.
    + intros f Hf Hpy.
      repeat (apply elem_of_cons in Hf as [->|Hf];
              [first [now split|discriminate]|]).
      now apply elem_of_nil in Hf.
Defined.

Lemma reload_paths_witness :
  exists σ',
    reload (demo ["m.py"]) "m" registered_unbound_m =
      Some (Raise (str_attribute_error "_VERSION"), σ') /\
    bound σ' !! "m" = Some 2%nat /\
    log σ' = [not_loaded_warning "m"].
Proof.
  destruct (proj1 (proj2 (reload_paths (demo ["m.py"]) "m" registered_unbound_m)))
    as (_ & _ & Hraise).
  - apply list_elem_of_In. now left.
  - reflexivity.
  - discriminate.
  - discriminate.
  - reflexivity.
  - apply (Hraise (or_introl eq_refl) 2%nat (<[2%nat := ∅]> ∅)). reflexivity.
Defined.

Lemma import_shadowed_by_parameter_witness :
  exists σ',
    import_user_module (demo ["m.py"]) "m" (initial ∅) =
      Some (Raise (str_attribute_error "_VERSION"), σ') /\
    bound σ' !! "m" = Some 2%nat /\
    heap σ' = <[2%nat := ∅]> ∅ /\
    module_attrs (heap σ') 2%nat !! "_VERSION" = None.
Proof.
  apply (import_shadowed_by_parameter (demo ["m.py"]) (initial ∅) 2%nat);
    reflexivity.
Defined.

Lemma import_writes_placeholders_witness :
  exists σ',
    import_user_module (demo ["a.py"]) "a" (initial ∅) = Some (Return true, σ') /\
    module_attrs (heap σ') 1%nat !! "_VERSION" = Some (VStr "?.?.?") /\
    module_attrs (heap σ') 1%nat !! "_DESCRIPTION" = Some (VStr "?").
Proof.
  destruct (import_writes_placeholders (demo ["a.py"]) "a" (initial ∅) 1%nat
              (<[1%nat := ∅]> ∅))
    as (σ' & Hrun & _ & Hv & Hd & _); try reflexivity; try discriminate.
  exists σ'. split; [exact Hrun|]. split; [now apply Hv|now apply Hd].
Defined.

Lemma import_shadowed_by_importlib_witness :
  exists σ',
    import_user_module (demo_ok []) "importlib" (initial ∅) =
      Some (Return true, σ') /\
    module_attrs (heap σ') 0%nat !! "_VERSION" = Some (VStr "?.?.?").
Proof.
  destruct (import_shadowed_by_importlib (demo_ok []) (initial ∅) 7%nat
              (<[7%nat := ∅]> ∅))
    as (σ' & Hrun & _ & Hv); [reflexivity|reflexivity|discriminate|].
  exists σ'. split; [exact Hrun|]. now apply Hv.
Defined.

Lemma reload_bound_module_witness :
  reload (demo_ok []) "a" registered_bound =
    Some (Return true,
          add_log (reloaded_notice "a") (set_heap ∅ registered_bound)).
Proof.
  apply (reload_bound_module (demo_ok []) "a" registered_bound 1%nat ∅).
  - apply list_elem_of_In. now left.
  - reflexivity.
  - discriminate.
  - discriminate.
  - reflexivity.
  - reflexivity.
Defined.

Lemma reload_shadowed_by_locals_witness :
  reload (demo []) "userlib" registered_bound =
    Some (Return false,
          add_log (reload_error "userlib" reload_type_error) registered_bound).
Proof.
  apply (proj1 (reload_shadowed_by_locals (demo []) "userlib" registered_bound
                  ltac:(apply list_elem_of_In; right; now left) eq_refl)).
  reflexivity.
Defined.

Lemma reload_all_result_witness :
  exists o σ' recs,
    reload_all (demo ["a.py"]) registered_unbound = Some (o, σ') /\
    _user_modules σ' = ["a"] /\
    log σ' = recs /\ (exists b, o = Return b).
Proof.
  destruct (reload_all_result (demo ["a.py"]) registered_unbound)
    as (o & σ' & recs & Hrun & Hreg & _ & Hlog & _ & _ & Hret).
  - intros lib Hlib. apply elem_of_cons in Hlib as [->|Hlib]; [reflexivity|].
    now apply elem_of_nil in Hlib.
  - exists o, σ', recs. split; [exact Hrun|]. split; [exact Hreg|].
    split; [exact Hlog|]. apply Hret.
    + intros Hin. apply elem_of_cons in Hin as [Hin|Hin]; [discriminate|].
      now apply elem_of_nil in Hin.
    + intros Hin. apply elem_of_cons in Hin as [Hin|Hin]; [discriminate|].
      now apply elem_of_nil in Hin.
Defined.

Lemma init_lib_accounts_for_modules_witness :
  exists o σ' recs,
    init_lib (demo ["b.py"; "a.py"; "notes.txt"]) (Some "/usr/local/smarthome")
      (initial ∅) = Some (o, σ') /\
    log σ' = recs /\
    get_uf_dir σ' = Some (Return (Some "/usr/local/smarthome/functions"), σ').
Proof.
  destruct (init_lib_accounts_for_modules (demo ["b.py"; "a.py"; "notes.txt"])
              (Some "/usr/local/smarthome") (initial ∅)
              "/usr/local/smarthome" ["b.py"; "a.py"; "notes.txt"])
    as (o & σ' & recs & Hrun & Hlog & Hdir & _).
  - reflexivity.
  - reflexivity.
  - intros f Hf Hpy.
    repeat (apply elem_of_cons in Hf as [->|Hf]; [first [reflexivity|discriminate]|]).
    now apply elem_of_nil in Hf.
  - exists o, σ', recs. split; [exact Hrun|]. split; [exact Hlog|exact Hdir].
Defined.

Lemma init_lib_stops_at_m_witness :
  exists σ',
    init_lib (demo_ok ["z.py"; "m.py"; "a.py"]) (Some "/usr/local/smarthome")
      (initial ∅) = Some (Raise (str_attribute_error "_VERSION"), σ') /\
    bound σ' !! "z" = None.
Proof.
  destruct (init_lib_stops_at_m (demo_ok ["z.py"; "m.py"; "a.py"])
              (Some "/usr/local/smarthome") (initial ∅)
              "/usr/local/smarthome" ["z.py"; "m.py"; "a.py"])
    as (σ' & Hrun & _ & _ & Hafter).
  - reflexivity.
  - reflexivity.
  - intros f Hf Hpy.
    repeat (apply elem_of_cons in Hf as [->|Hf]; [first [reflexivity|discriminate]|]).
    now apply elem_of_nil in Hf.
  - exists "m.py". split; [|split; reflexivity]. right. now left.
  - intros hp. eexists _, _. reflexivity.
  - exists σ'. split; [exact Hrun|]. rewrite Hafter; [reflexivity|].
    intros H. vm_compute in H. exact H.
Defined.

End Userfunctions.

(** ** Properties of [lib/env] *)

Module LibEnvFacts.
Import Py LibEnv.

Lemma row_below_not_lt a b : row_below a b -> tuple_lt b a = false.
Proof.
  intros [H _]. unfold tuple_lt.
  apply Qgt_alt in H. now rewrite H.
Qed.

Lemma min_from_least {A} (lt : A -> A -> bool) best r :
  Forall (fun x => lt x best = false) r -> min_from lt best r = best.
Proof.
  induction 1 as [|x r Hx _ IH]; simpl; [reflexivity|].
  now rewrite Hx.
Qed.

(** On a list in which no later item is below an earlier one, [min] of the
    filtered list is the first item that passes the filter. *)
Lemma min_filter_sorted {A} (lt : A -> A -> bool) (p : A -> bool) l :
  StronglySorted (fun a b => lt b a = false) l ->
  min lt (List.filter p l) =
  match List.find p l with Some x => Return x | None => Raise min_empty end.
Proof.
  induction 1 as [|a r Hr IH Ha]; simpl; [reflexivity|].
  destruct (p a); simpl; [|exact IH].
  f_equal. apply min_from_least.
  rewrite Forall_forall in *. intros x Hx.
  apply list_elem_of_In, filter_In in Hx as [Hx _].
  apply Ha. now apply list_elem_of_In.
Qed.

Lemma table_increasing : StronglySorted row_below table.
Proof.
  unfold table, row_below. repeat constructor.
Qed.

Lemma StronglySorted_weaken {A} (R S : A -> A -> Prop) l :
  (forall a b, R a b -> S a b) -> StronglySorted R l -> StronglySorted S l.
Proof.
  intros HRS. induction 1 as [|a r _ IH Ha]; constructor; [exact IH|].
  eapply Forall_impl; [exact Ha|]. intros b. apply HRS.
Qed.

Lemma table_no_later_less :
  StronglySorted (fun a b => tuple_lt b a = false) table.
Proof.
  apply (StronglySorted_weaken row_below); [|exact table_increasing].
  intros a b. apply row_below_not_lt.
Qed.

Lemma lookup_bft_find speed :
  lookup_bft speed =
  match List.find (fun x => Qle_bool speed x.1) table with
  | Some x => Return x
  | None => Raise min_empty
  end.
Proof. apply min_filter_sorted, table_no_later_less. Qed.

(** The first item of a sorted list that passes a filter is related to
    every other item that passes it. *)
Lemma find_sorted_first {A} (R : A -> A -> Prop) (p : A -> bool) l x :
  StronglySorted R l -> List.find p l = Some x ->
  In x l /\ p x = true /\ forall y, In y l -> p y = true -> x = y \/ R x y.
Proof.
  induction 1 as [|a r Hr IH Ha]; simpl; [discriminate|].
  destruct (p a) eqn:Hpa; intros Hf.
  - injection Hf as <-. split; [now left|]. split; [exact Hpa|].
    intros y [->|Hy] _; [now left|right].
    rewrite Forall_forall in Ha. now apply Ha, list_elem_of_In.
  - destruct (IH Hf) as (Hin & Hpx & Hleast).
    split; [now right|]. split; [exact Hpx|].
    intros y [->|Hy] Hpy; [congruence|now apply Hleast].
Qed.

Lemma find_none_filter {A} (p : A -> bool) l :
  List.find p l = None <-> List.filter p l = [].
Proof.
  induction l as [|a r IH]; simpl; [tauto|].
  destruct (p a); [split; discriminate|exact IH].
Qed.

Lemma table_bounds :
  Forall (fun row : Q * Z => (row.1 <= 999)%Q /\ 0 <= row.2 <= 12) table.
Proof. unfold table. repeat constructor; simpl; discriminate. Qed.

(** A speed is matched by some row exactly when it is at most 999. *)
Lemma lookup_bft_matches speed :
  (speed <= 999)%Q -> exists row, List.find (fun x => Qle_bool speed x.1) table = Some row.
Proof.
  intros H.
  destruct (List.find _ table) as [row|] eqn:Hf; [now exists row|].
  exfalso. apply Qle_bool_iff in H.
  assert (Hlast : In (999%Q, 12) table) by (unfold table; simpl; tauto).
  apply (find_none _ _ Hf) in Hlast. simpl in Hlast. congruence.
Qed.

Lemma lookup_bft_unmatched speed :
  (999 < speed)%Q -> List.filter (fun x => Qle_bool speed x.1) table = [].
Proof.
  intros H. apply find_none_filter.
  destruct (List.find _ table) as [row|] eqn:Hf; [|reflexivity].
  apply find_some in Hf as [Hin Hle]. apply Qle_bool_iff in Hle.
  pose proof table_bounds as Hb. rewrite Forall_forall in Hb.
  apply list_elem_of_In, Hb in Hin as [Hin _]. lra.
Qed.

(** The rows of [table] are the rows of the source, in its order. *)
Lemma table_rows :
  table =
  [ (fl 0.3%float, 0); (fl 1.6%float, 1); (fl 3.4%float, 2);
    (fl 5.5%float, 3); (fl 8.0%float, 4); (fl 10.8%float, 5);
    (fl 13.9%float, 6); (fl 17.2%float, 7); (fl 20.8%float, 8);
    (fl 24.5%float, 9); (fl 28.5%float, 10); (fl 32.7%float, 11);
    (inject_Z 999, 12) ].
Proof. vm_compute. reflexivity. Qed.

(** C2.  For a speed [s] with [0 <= s <= 999], [ms_to_bft s] returns the
    Beaufort number of the row of the 13-row table with the smallest bound
    that is at least [s], and logs nothing; [ms_to_bft(0.3) = 0],
    [ms_to_bft(0.31) = 1] and [ms_to_bft(999) = 12]. *)
Theorem ms_to_bft_smallest_threshold (s : Q) :
  (0 <= s)%Q -> (s <= 999)%Q ->
  (exists t b,
      In (t, b) table /\ (s <= t)%Q /\
      (forall t' b', In (t', b') table -> (s <= t')%Q -> (t <= t')%Q) /\
      ms_to_bft s = Run (Return b) []) /\
  table =
    [ (fl 0.3%float, 0); (fl 1.6%float, 1); (fl 3.4%float, 2);
      (fl 5.5%float, 3); (fl 8.0%float, 4); (fl 10.8%float, 5);
      (fl 13.9%float, 6); (fl 17.2%float, 7); (fl 20.8%float, 8);
      (fl 24.5%float, 9); (fl 28.5%float, 10); (fl 32.7%float, 11);
      (inject_Z 999, 12) ] /\
  ms_to_bft (fl 0.3%float) = Run (Return 0) [] /\
  ms_to_bft (fl 0.31%float) = Run (Return 1) [] /\
  ms_to_bft 999 = Run (Return 12) [].
Proof.
  intros _ Hmax. split; [|now vm_compute].
  destruct (lookup_bft_matches s Hmax) as [[t b] Hf].
  destruct (find_sorted_first row_below _ _ _ table_increasing Hf)
    as (Hin & Hp & Hleast).
  exists t, b. split; [exact Hin|]. apply Qle_bool_iff in Hp.
  split; [exact Hp|]. split.
  - intros t' b' Hin' Hle'. apply Qle_bool_iff in Hle'.
    destruct (Hleast (t', b') Hin' Hle') as [Heq|[Hlt _]].
    + injection Heq as -> _. apply Qle_refl.
    + now apply Qlt_le_weak.
  - unfold ms_to_bft. now rewrite lookup_bft_find, Hf.
Qed.

Lemma ms_to_bft_smallest_threshold_witness :
  (exists t b,
      In (t, b) table /\ (5 <= t)%Q /\
      (forall t' b', In (t', b') table -> (5 <= t')%Q -> (t <= t')%Q) /\
      ms_to_bft 5 = Run (Return b) []) /\
  table =
    [ (fl 0.3%float, 0); (fl 1.6%float, 1); (fl 3.4%float, 2);
      (fl 5.5%float, 3); (fl 8.0%float, 4); (fl 10.8%float, 5);
      (fl 13.9%float, 6); (fl 17.2%float, 7); (fl 20.8%float, 8);
      (fl 24.5%float, 9); (fl 28.5%float, 10); (fl 32.7%float, 11);
      (inject_Z 999, 12) ] /\
  ms_to_bft (fl 0.3%float) = Run (Return 0) [] /\
  ms_to_bft (fl 0.31%float) = Run (Return 1) [] /\
  ms_to_bft 999 = Run (Return 12) [].
Proof. apply (ms_to_bft_smallest_threshold 5); vm_compute; discriminate. Defined.

(** C3, as stated, fails: 999 <= 1000, yet [ms_to_bft(999) = 12] and
    [ms_to_bft(1000) = -1], which is neither above 12 nor in [0,12]. *)
Lemma ms_to_bft_not_monotone_beyond_table :
  ~ (forall s1 s2 : Q, (0 <= s1)%Q -> (s1 <= s2)%Q ->
       exists b1 b2,
         result (ms_to_bft s1) = Return b1 /\
         result (ms_to_bft s2) = Return b2 /\
         b1 <= b2 /\ 0 <= b1 <= 12 /\ 0 <= b2 <= 12).
Proof.
  intros H.
  destruct (H 999%Q 1000%Q) as (b1 & b2 & H1 & H2 & Hle & _ & Hb2);
    [discriminate|discriminate|].
  vm_compute in H2. injection H2 as <-. lia.
Qed.

(** C3, amended.  For speeds [0 <= s1 <= s2 <= 999], [ms_to_bft] is
    monotonically non-decreasing and its results lie in [0,12]. *)
Theorem ms_to_bft_monotone_upto_999 (s1 s2 : Q) :
  (0 <= s1)%Q -> (s1 <= s2)%Q -> (s2 <= 999)%Q ->
  exists b1 b2,
    result (ms_to_bft s1) = Return b1 /\
    result (ms_to_bft s2) = Return b2 /\
    b1 <= b2 /\ 0 <= b1 <= 12 /\ 0 <= b2 <= 12.
Proof.
  intros _ H12 H2.
  assert (H1 : (s1 <= 999)%Q) by lra.
  destruct (lookup_bft_matches s1 H1) as [[t1 b1] Hf1].
  destruct (lookup_bft_matches s2 H2) as [[t2 b2] Hf2].
  exists b1, b2. unfold ms_to_bft. rewrite !lookup_bft_find, Hf1, Hf2. simpl.
  split; [reflexivity|]. split; [reflexivity|].
  destruct (find_sorted_first row_below _ _ _ table_increasing Hf1)
    as (Hin1 & _ & Hleast).
  apply find_some in Hf2 as [Hin2 Hp2]. apply Qle_bool_iff in Hp2.
  simpl in Hp2.
  pose proof table_bounds as Hb. rewrite Forall_forall in Hb.
  pose proof (Hb _ (proj2 (list_elem_of_In _ _) Hin1)) as [_ Hb1].
  pose proof (Hb _ (proj2 (list_elem_of_In _ _) Hin2)) as [_ Hb2].
  simpl in Hb1, Hb2. split; [|split; assumption].
  destruct (Hleast (t2, b2) Hin2) as [Heq|[_ Hlt]].
  - apply Qle_bool_iff. simpl. lra.
  - injection Heq as _ ->. lia.
  - simpl in Hlt. lia.
Qed.

Lemma ms_to_bft_monotone_upto_999_witness :
  exists b1 b2,
    result (ms_to_bft 2) = Return b1 /\
    result (ms_to_bft 30) = Return b2 /\
    b1 <= b2 /\ 0 <= b1 <= 12 /\ 0 <= b2 <= 12.
Proof. apply (ms_to_bft_monotone_upto_999 2 30); vm_compute; discriminate. Defined.




(** Negative speeds take the first row. *)
Lemma ms_to_bft_negative (s : Q) :
  (s < 0)%Q ->
  ms_to_bft s = Run (Return 0) [] /\
  Env.mps_to_beaufort s = Run (Return (Some 0)) [].
Proof.
  intros Hs. unfold ms_to_bft, Env.mps_to_beaufort, lookup_bft.
  rewrite (min_filter_sorted _ _ _ table_no_later_less).
  assert (H : Qle_bool s (5404319552844595 # 18014398509481984) = true)
    by (apply Qle_bool_iff; lra).
  unfold table. simpl. now rewrite H.
Qed.

(** C1.  The free functions and the static methods of [Env] do not agree:
    one knot is 1852 for [kn_to_kmh] and 1.852 for [Env.kn_to_kmh], and the
    two surfaces agree at 0 only. *)
Theorem kn_kmh_surfaces_differ :
  kn_to_kmh 1 = Return (1 * 1852)%Q /\
  Env.kn_to_kmh 1 = Return (1 * fl 1.852%float)%Q /\
  ~ same_result (kn_to_kmh 1) (Env.kn_to_kmh 1) /\
  ~ same_result (kmh_to_kn 1) (Env.kmh_to_kn 1) /\
  (forall x : Q, same_result (kn_to_kmh x) (Env.kn_to_kmh x) <-> (x == 0)%Q) /\
  (forall x : Q, same_result (kmh_to_kn x) (Env.kmh_to_kn x) <-> (x == 0)%Q).
Proof.
  split; [reflexivity|]. split; [now vm_compute|].
  split; [now vm_compute|]. split; [now vm_compute|].
  split; intros x.
  - unfold same_result, kn_to_kmh, Env.kn_to_kmh.
    set (a := _nautical_mile). set (b := Env.lit_1_852).
    vm_compute in a, b. subst a b. split; intros H; lra.
  - unfold same_result, kmh_to_kn, Env.kmh_to_kn, truediv.
    change (Qeq_bool _nautical_mile 0) with false.
    change (Qeq_bool Env.lit_1_852 0) with false. cbv iota. unfold Qdiv.
    set (a := (/ _nautical_mile)%Q). set (b := (/ Env.lit_1_852)%Q).
    vm_compute in a, b. subst a b. split; intros H; lra.
Qed.

(** C5.  [Env.kmh_to_beaufort] raises [NameError] for every speed:
    [mps_to_beaufort] is a method of the class and no global of the module.
    The free function [kmh_to_bft] does return a Beaufort number. *)
Theorem kmh_to_beaufort_raises (speed_in_kmh : Q) :
  Env.kmh_to_beaufort speed_in_kmh =
    Run (Raise (Exn "NameError" "name 'mps_to_beaufort' is not defined")) [] /\
  Env.kmh_to_beaufort 36 =
    Run (Raise (Exn "NameError" "name 'mps_to_beaufort' is not defined")) [] /\
  kmh_to_bft (NInt 36) = Run (Return 5) [].
Proof. split; [reflexivity|]. split; [reflexivity|now vm_compute]. Qed.

Lemma getitem_in_range {A} (l : list A) (i : Z) :
  0 <= i < Z.of_nat (length l) ->
  exists x, l !! Z.to_nat i = Some x /\ getitem l i = Return x.
Proof.
  intros [H0 H1]. unfold getitem.
  destruct (Z.ltb_spec i 0); [lia|].
  destruct (Z.leb_spec 0 i); [|lia]. destruct (Z.ltb_spec i (Z.of_nat (length l))); [|lia].
  simpl. destruct (lookup_lt_is_Some_2 l (Z.to_nat i)) as [x Hx]; [lia|].
  exists x. now rewrite Hx.
Qed.

(** *** Wind directions of [int] bearings *)

Lemma Qfloor_unique (x : Q) (z : Z) :
  (inject_Z z <= x)%Q -> (x < inject_Z (z + 1))%Q -> Qfloor x = z.
Proof.
  intros Hlo Hhi.
  pose proof (Qfloor_resp_le _ _ Hlo) as H1. rewrite Qfloor_Z in H1.
  pose proof (Qfloor_le x) as H2.
  assert (H3 : (inject_Z (Qfloor x) < inject_Z (z + 1))%Q)
    by (eapply Qle_lt_trans; eassumption).
  rewrite <- Zlt_Qlt in H3. lia.
Qed.

Lemma in_turn (r : Z) : 0 <= r < 360 -> In r turn.
Proof.
  intros Hr. apply list_elem_of_In, list_elem_of_fmap.
  exists (Z.to_nat r). split; [lia|]. apply elem_of_seq. lia.
Qed.

(** An [int] bearing is reduced modulo 360 exactly, before any float
    operation. *)
Lemma wind8_reduce (d : Z) :
  Env.get_wind_direction8 (NInt d) = Env.get_wind_direction8 (NInt (d mod 360)).
Proof.
  unfold Env.get_wind_direction8, mod_int. change (360 =? 0) with false.
  cbv iota. now rewrite Z.mod_mod by lia.
Qed.

Lemma wind16_reduce (d : Z) :
  Env.get_wind_direction16 (NInt d) = Env.get_wind_direction16 (NInt (d mod 360)).
Proof.
  unfold Env.get_wind_direction16, mod_int. change (360 =? 0) with false.
  cbv iota. now rewrite Z.mod_mod by lia.
Qed.

(** On each of the 360 [int] bearings of a turn the binary64 sum and
    quotient give the index of the exact formula (by evaluation). *)
Lemma turn_checked8 :
  forallb (fun r => returns_entry (Env.get_wind_direction8 (NInt r))
                      Env.direction_array8
                      (Qfloor ((inject_Z r + 22.5) / 45))) turn = true.
Proof. vm_compute. reflexivity. Qed.

Lemma turn_checked16 :
  forallb (fun r => returns_entry (Env.get_wind_direction16 (NInt r))
                      Env.direction_array16
                      (Qfloor ((inject_Z r + 11.25) / 22.5))) turn = true.
Proof. vm_compute. reflexivity. Qed.

Lemma returns_entry_spec o l i :
  returns_entry o l i = true ->
  exists s, 0 <= i < Z.of_nat (length l) /\ l !! Z.to_nat i = Some s /\
            o = Return s.
Proof.
  destruct o as [s|e]; [|discriminate]. simpl.
  intros H. apply andb_prop in H as [H Hs]. apply andb_prop in H as [H0 H1].
  apply bool_decide_eq_true in Hs. exists s. split; [lia|]. now split.
Qed.

Lemma wind8_index (d k r : Z) :
  d = 360 * k + r -> 0 <= r < 360 ->
  exists lbl,
    0 <= Qfloor ((inject_Z r + 22.5) / 45) < Z.of_nat (length Env.direction_array8) /\
    Env.direction_array8 !! Z.to_nat (Qfloor ((inject_Z r + 22.5) / 45)) = Some lbl /\
    Env.get_wind_direction8 (NInt d) = Return lbl.
Proof.
  intros Hd Hr.
  assert (Hmod : d mod 360 = r).
  { subst d. rewrite Z.add_comm, Z.mul_comm, Z_mod_plus_full. now apply Z.mod_small. }
  pose proof turn_checked8 as Hall. rewrite forallb_forall in Hall.
  specialize (Hall r (in_turn r Hr)).
  apply returns_entry_spec in Hall as (lbl & Hi & Hl & Hg).
  exists lbl. split; [exact Hi|]. split; [exact Hl|].
  now rewrite wind8_reduce, Hmod.
Qed.

Lemma wind16_index (d k r : Z) :
  d = 360 * k + r -> 0 <= r < 360 ->
  exists lbl,
    0 <= Qfloor ((inject_Z r + 11.25) / 22.5) < Z.of_nat (length Env.direction_array16) /\
    Env.direction_array16 !! Z.to_nat (Qfloor ((inject_Z r + 11.25) / 22.5)) = Some lbl /\
    Env.get_wind_direction16 (NInt d) = Return lbl.
Proof.
  intros Hd Hr.
  assert (Hmod : d mod 360 = r).
  { subst d. rewrite Z.add_comm, Z.mul_comm, Z_mod_plus_full. now apply Z.mod_small. }
  pose proof turn_checked16 as Hall. rewrite forallb_forall in Hall.
  specialize (Hall r (in_turn r Hr)).
  apply returns_entry_spec in Hall as (lbl & Hi & Hl & Hg).
  exists lbl. split; [exact Hi|]. split; [exact Hl|].
  now rewrite wind16_reduce, Hmod.
Qed.



Lemma bft_to_text_not_int (bft : pyval) (language : string) :
  (forall n, bft <> VInt n) ->
  bft_to_text bft language = Run (Return EmptyString) [not_int_error bft].
Proof. intros H. destruct bft; try reflexivity. now destruct (H z). Qed.

Lemma bft_to_text_out_of_scale (n : Z) (language : string) :
  n < 0 \/ 12 < n ->
  bft_to_text (VInt n) language =
    Run (Return EmptyString) [out_of_scale_error (VInt n)].
Proof.
  intros H. unfold bft_to_text.
  destruct (Z.ltb_spec n 0); [reflexivity|].
  destruct (Z.ltb_spec 12 n); [reflexivity|lia].
Qed.



(** ** More on the Beaufort functions *)

(** Two rows of a sorted list are one row, or one is below the other. *)
Lemma sorted_trichotomy {A} (R : A -> A -> Prop) l x y :
  StronglySorted R l -> In x l -> In y l -> x = y \/ R x y \/ R y x.
Proof.
  induction 1 as [|a r Hr IH Ha]; simpl; [tauto|].
  rewrite Forall_forall in Ha.
  intros [->|Hx] [->|Hy]; auto.
  - right. left. now apply Ha, list_elem_of_In.
  - right. right. now apply Ha, list_elem_of_In.
Qed.

(** X1.  The Beaufort number [b] of the row with bound [t] is returned for
    exactly the speeds in the half-open interval that ends at [t] and starts
    at the bound of the row before (for the first row: for every speed up to
    [t], negative ones too). *)
Theorem bft_class_interval (s t : Q) (b : Z) :
  In (t, b) table ->
  (ms_to_bft s = Run (Return b) [] <->
   (s <= t)%Q /\
   forall t' b', In (t', b') table -> (t' < t)%Q -> (t' < s)%Q).
Proof.
  intros Hin. split.
  - intros Hrun. unfold ms_to_bft in Hrun. rewrite lookup_bft_find in Hrun.
    destruct (List.find _ table) as [[t0 b0]|] eqn:Hf; [|discriminate].
    injection Hrun as Hb. simpl in Hb. subst b0.
    destruct (find_sorted_first row_below _ _ _ table_increasing Hf)
      as (Hin0 & Hp & Hleast).
    apply Qle_bool_iff in Hp. simpl in Hp.
    assert (Heq : (t0, b) = (t, b)).
    { destruct (sorted_trichotomy _ _ _ _ table_increasing Hin0 Hin)
        as [H|[[_ H]|[_ H]]]; [exact H|simpl in H; lia..]. }
    injection Heq as ->. split; [exact Hp|].
    intros t' b' Hin' Hlt. apply Qnot_le_lt. intros Hle.
    apply Qle_bool_iff in Hle.
    destruct (Hleast (t', b') Hin' Hle) as [H|[H _]].
    + injection H as -> _. lra.
    + simpl in H. lra.
  - intros [Hle Hprev].
    assert (Hmax : (s <= 999)%Q).
    { pose proof table_bounds as Hb. rewrite Forall_forall in Hb.
      apply list_elem_of_In, Hb in Hin as [Hin _]. simpl in Hin. lra. }
    destruct (lookup_bft_matches s Hmax) as [[t0 b0] Hf].
    unfold ms_to_bft. rewrite lookup_bft_find, Hf. simpl.
    destruct (find_sorted_first row_below _ _ _ table_increasing Hf)
      as (Hin0 & Hp & Hleast).
    apply Qle_bool_iff in Hp. simpl in Hp.
    destruct (sorted_trichotomy _ _ _ _ table_increasing Hin0 Hin)
      as [H|[[H _]|[H _]]].
    + now injection H as _ ->.
    + simpl in H. specialize (Hprev t0 b0 Hin0 H). lra.
    + simpl in H. apply Qle_bool_iff in Hle.
      destruct (Hleast (t, b) Hin Hle) as [H'|[H' _]].
      * now injection H' as _ ->.
      * simpl in H'. lra.
Qed.

Lemma bft_class_interval_witness :
  ms_to_bft 7 = Run (Return 4) [] <->
  (7 <= 8)%Q /\
  forall t' b', In (t', b') table -> (t' < 8)%Q -> (t' < 7)%Q.
Proof.
  apply (bft_class_interval 7 8 4). unfold table. simpl. tauto.
Defined.

(** What the two look-ups do with a speed: up to 999 both return the number
    of the same row, within 0..12, and log nothing; above 999 both log
    their error and return their sentinel. *)
Lemma beaufort_cases (s : Q) :
  ((s <= 999)%Q /\
   exists b, 0 <= b <= 12 /\
     ms_to_bft s = Run (Return b) [] /\
     Env.mps_to_beaufort s = Run (Return (Some b)) []) \/
  ((999 < s)%Q /\
   ms_to_bft s = Run (Return (-1)) [ms_to_bft_error s] /\
   Env.mps_to_beaufort s = Run (Return None) [mps_to_beaufort_error s]).
Proof.
  destruct (Qlt_le_dec 999 s) as [Hgt|Hle].
  - right. split; [exact Hgt|].
    unfold ms_to_bft, Env.mps_to_beaufort, lookup_bft.
    rewrite (lookup_bft_unmatched s Hgt). simpl. now split.
  - left. split; [exact Hle|].
    destruct (lookup_bft_matches s Hle) as [[t b] Hf].
    exists b. split.
    + pose proof Hf as Hin. apply find_some in Hin as [Hin _].
      pose proof table_bounds as Hb. rewrite Forall_forall in Hb.
      now apply list_elem_of_In, Hb in Hin as [_ Hin].
    + pose proof (lookup_bft_find s) as Hl. rewrite Hf in Hl.
      unfold ms_to_bft, Env.mps_to_beaufort.
      unfold lookup_bft in Hl. unfold lookup_bft. rewrite Hl. now split.
Qed.


(** Every number gets a Beaufort number of 0..12 or the sentinel -1. *)
Lemma ms_to_bft_num_range (v : num) :
  exists b, result (ms_to_bft_num v) = Return b /\ -1 <= b <= 12.
Proof.
  assert (HQ : forall s, exists b, result (ms_to_bft s) = Return b /\ -1 <= b <= 12).
  { intros s. destruct (beaufort_cases s) as [(_ & b & Hb & -> & _)|(_ & -> & _)].
    - exists b. simpl. split; [reflexivity|lia].
    - exists (-1). simpl. split; [reflexivity|lia]. }
  destruct v as [z|f]; unfold ms_to_bft_num; [apply HQ|].
  destruct (is_nan f || is_infinity f && negb (get_sign f)).
  - exists (-1). simpl. split; [reflexivity|lia].
  - destruct (is_infinity f); [|apply HQ].
    exists 0. simpl. split; [reflexivity|lia].
Qed.

(** Division by a literal of the source: the divisor is not zero. *)
Lemma div_float_3_6 (x : num) :
  div_float x 3.6 = (f ← to_float x; Return (f / 3.6)%float).
Proof. reflexivity. Qed.

Lemma to_float_too_large (z : Z) :
  2 ^ 1024 - 2 ^ 970 <= Z.abs z -> to_float (NInt z) = Raise int_too_large.
Proof.
  intros Hz. unfold to_float, float_of_int.
  destruct (Z.leb_spec (2 ^ 1024 - 2 ^ 970) (Z.abs z)) as [_|Hlt]; [reflexivity|].
  exfalso. apply (Z.lt_irrefl (Z.abs z)). eapply Z.lt_le_trans; eassumption.
Qed.


(** Entry [n] of a table whose entries are all non-empty. *)
Lemma getitem_nonempty (l : list string) (n : Z) :
  Forall (fun x => x <> EmptyString) l -> 0 <= n < Z.of_nat (length l) ->
  exists x, getitem l n = Return x /\ x <> EmptyString.
Proof.
  intros Hl Hn. destruct (getitem_in_range l n Hn) as (x & Hx & Hget).
  exists x. split; [exact Hget|].
  rewrite Forall_forall in Hl. apply Hl. now apply list_elem_of_lookup_2 in Hx.
Qed.

Lemma descriptions_nonempty :
  Forall (fun x => x <> EmptyString) _beaufort_descriptions_de /\
  Forall (fun x => x <> EmptyString) _beaufort_descriptions_en.
Proof. repeat split; repeat constructor; discriminate. Qed.


(** X5.  On an object built from a host, whose language is [de] as written
    or does not lower-case to [de], the method
    [Env.get_beaufort_description] and the function [bft_to_text] return
    the same text for every argument, the method giving [None] where the
    function gives the empty string.  The method compares the language as
    it is and the function lower-cases it: for [DE] the method answers in
    English and the function in German.  On an object whose [__init__] has
    not run, the method answers an [int] of 0..12 in German, and raises
    [AttributeError] on the missing logger for every other argument. *)
Theorem get_beaufort_description_agrees (v : pyval) (language : string) :
  language = "de" \/ lower language <> "de" ->
  result (Env.get_beaufort_description (Some language) v) =
    (txt ← result (bft_to_text v language);
     Return (if String.eqb txt EmptyString then None else Some txt)) /\
  (forall n, v = VInt n -> 0 <= n <= 12 ->
     Env.get_beaufort_description None v =
       Run (txt ← result (bft_to_text v "de"); Return (Some txt)) []) /\
  ((forall n, v = VInt n -> n < 0 \/ 12 < n) ->
   exists method,
     Env.get_beaufort_description None v = Run (Raise (Env.no_logger method)) []) /\
  result (Env.get_beaufort_description (Some "DE") (VInt 0)) =
    Return (Some "Calm") /\
  result (bft_to_text (VInt 0) "DE") = Return "Windstille".
Proof.
  intros Hlang.
  assert (Hsel : String.eqb language "de" = String.eqb (lower language) "de").
  { destruct Hlang as [->|Hne]; [reflexivity|].
    apply String.eqb_neq in Hne. rewrite Hne. apply String.eqb_neq.
    intros ->. now apply String.eqb_neq in Hne. }
  destruct descriptions_nonempty as (Hde & Hen).
  split; [|split; [|split; [|now vm_compute]]].
  - destruct v as [|n| | |]; try reflexivity.
    unfold Env.get_beaufort_description, bft_to_text. rewrite Hsel.
    destruct ((n <? 0) || (12 <? n)) eqn:Hr; [reflexivity|].
    apply orb_false_iff in Hr as [H0 H12].
    apply Z.ltb_ge in H0, H12.
    destruct (String.eqb (lower language) "de").
    + change Env._beaufort_descriptions_de with _beaufort_descriptions_de.
      destruct (getitem_nonempty _ n Hde) as (x & Hx & Hne'); [simpl; lia|].
      simpl. rewrite Hx. simpl. apply String.eqb_neq in Hne'. now rewrite Hne'.
    + change Env._beaufort_descriptions_en with _beaufort_descriptions_en.
      destruct (getitem_nonempty _ n Hen) as (x & Hx & Hne'); [simpl; lia|].
      simpl. rewrite Hx. simpl. apply String.eqb_neq in Hne'. now rewrite Hne'.
  - intros n -> Hn.
    unfold Env.get_beaufort_description, bft_to_text.
    change (String.eqb (lower "de") "de") with true. cbv iota.
    destruct (Z.ltb_spec n 0); [lia|]. destruct (Z.ltb_spec 12 n); [lia|].
    reflexivity.
  - intros Hv. destruct v as [|n| | |].
    + now exists "warning".
    + exists "error". unfold Env.get_beaufort_description.
      destruct (Hv n eq_refl) as [Hn|Hn].
      * destruct (Z.ltb_spec n 0); [reflexivity|lia].
      * destruct (Z.ltb_spec 12 n); [|lia]. now rewrite orb_true_r.
    + now exists "error".
    + now exists "error".
    + now exists "error".
Qed.

Lemma get_beaufort_description_agrees_witness :
  result (Env.get_beaufort_description (Some "en") (VInt 3)) =
    (txt ← result (bft_to_text (VInt 3) "en");
     Return (if String.eqb txt EmptyString then None else Some txt)).
Proof.
  apply (get_beaufort_description_agrees (VInt 3) "en").
  right. vm_compute. discriminate.
Defined.


(** ** The conversions of the class *)


(** ** More on the wind directions *)

(** X8.  For a bearing given as an [int], both functions have period 360:
    the bearing plus any whole number of turns, forwards or backwards, gets
    the same label. *)
Theorem wind_direction_periodic (d k : Z) :
  Env.get_wind_direction8 (NInt (d + 360 * k)) =
    Env.get_wind_direction8 (NInt d) /\
  Env.get_wind_direction16 (NInt (d + 360 * k)) =
    Env.get_wind_direction16 (NInt d).
Proof.
  assert (Hmod : (d + 360 * k) mod 360 = d mod 360)
    by (rewrite (Z.mul_comm 360 k); apply Z_mod_plus_full).
  split.
  - rewrite (wind8_reduce (d + 360 * k)), (wind8_reduce d). now rewrite Hmod.
  - rewrite (wind16_reduce (d + 360 * k)), (wind16_reduce d). now rewrite Hmod.
Qed.

(** X9.  The 8 sectors are centred on the multiples of 45: an [int] bearing
    within 22.5 degrees of [45 * j], the lower end included, gets entry [j]
    of the array; for [j = 0] that covers the bearings below 0 down to
    -22.5, which the code maps to the ninth entry, [N] again. *)
Theorem wind_direction8_sector (d j : Z) :
  0 <= j <= 7 ->
  (45 * inject_Z j - 22.5 <= inject_Z d)%Q ->
  (inject_Z d < 45 * inject_Z j + 22.5)%Q ->
  exists lbl, Env.direction_array8 !! Z.to_nat j = Some lbl /\
              Env.get_wind_direction8 (NInt d) = Return lbl.
Proof.
  intros Hj Hlo Hhi.
  assert (Hj7 : (inject_Z j <= 7)%Q)
    by (change 7%Q with (inject_Z 7); rewrite <- Zle_Qle; lia).
  assert (Hd1 : d < 360).
  { rewrite Zlt_Qlt. change (inject_Z 360) with (360 # 1)%Q. lra. }
  destruct (Z.lt_ge_cases d 0) as [Hneg|Hpos].
  - assert (Hd0 : (inject_Z d < 0)%Q)
      by (change 0%Q with (inject_Z 0); now rewrite <- Zlt_Qlt).
    assert (j = 0).
    { assert (Hj' : (inject_Z j < inject_Z 1)%Q)
        by (change (inject_Z 1) with 1%Q; lra).
      rewrite <- Zlt_Qlt in Hj'. lia. }
    subst j. change (inject_Z 0) with 0%Q in *.
    assert (Hd23 : -23 < d).
    { rewrite Zlt_Qlt. change (inject_Z (-23)) with (-23 # 1)%Q. lra. }
    destruct (wind8_index d (-1) (d + 360)) as (lbl & _ & Hl & Hg); [lia|lia|].
    replace (Qfloor ((inject_Z (d + 360) + 22.5) / 45)) with 8 in Hl.
    + exists lbl. split; [|exact Hg]. simpl in Hl. injection Hl as <-. reflexivity.
    + symmetry. apply Qfloor_unique; rewrite inject_Z_plus;
        change (inject_Z 360) with (360 # 1)%Q.
      * apply Qle_shift_div_l; [reflexivity|]. change (inject_Z 8) with 8%Q. lra.
      * apply Qlt_shift_div_r; [reflexivity|].
        change (inject_Z (8 + 1)) with 9%Q. lra.
  - assert (Hd0 : (0 <= inject_Z d)%Q)
      by (change 0%Q with (inject_Z 0); now rewrite <- Zle_Qle).
    destruct (wind8_index d 0 d) as (lbl & _ & Hl & Hg); [lia|lia|].
    replace (Qfloor ((inject_Z d + 22.5) / 45)) with j in Hl.
    + now exists lbl.
    + symmetry. apply Qfloor_unique.
      * apply Qle_shift_div_l; [reflexivity|]. lra.
      * apply Qlt_shift_div_r; [reflexivity|]. rewrite inject_Z_plus.
        change (inject_Z 1) with 1%Q. lra.
Qed.

Lemma wind_direction8_sector_witness :
  Env.get_wind_direction8 (NInt (-20)) = Return "N"%string.
Proof.
  destruct (wind_direction8_sector (-20) 0) as (lbl & Hl & Hg).
  - lia.
  - vm_compute. discriminate.
  - vm_compute. reflexivity.
  - simpl in Hl. injection Hl as <-. exact Hg.
Defined.

(** X10.  The 16 sectors are centred on the multiples of 22.5: an [int]
    bearing within 11.25 degrees of [22.5 * i], the lower end included,
    gets entry [i] of the array. *)
Theorem wind_direction16_sector (d i : Z) :
  0 <= i <= 15 ->
  (22.5 * inject_Z i - 11.25 <= inject_Z d)%Q ->
  (inject_Z d < 22.5 * inject_Z i + 11.25)%Q ->
  exists lbl, Env.direction_array16 !! Z.to_nat i = Some lbl /\
              Env.get_wind_direction16 (NInt d) = Return lbl.
Proof.
  intros Hj Hlo Hhi.
  assert (Hj7 : (inject_Z i <= 15)%Q)
    by (change 15%Q with (inject_Z 15); rewrite <- Zle_Qle; lia).
  assert (Hd1 : d < 360).
  { rewrite Zlt_Qlt. change (inject_Z 360) with (360 # 1)%Q. lra. }
  destruct (Z.lt_ge_cases d 0) as [Hneg|Hpos].
  - assert (Hd0 : (inject_Z d < 0)%Q)
      by (change 0%Q with (inject_Z 0); now rewrite <- Zlt_Qlt).
    assert (i = 0).
    { assert (Hj' : (inject_Z i < inject_Z 1)%Q)
        by (change (inject_Z 1) with 1%Q; lra).
      rewrite <- Zlt_Qlt in Hj'. lia. }
    subst i. change (inject_Z 0) with 0%Q in *.
    assert (Hd12 : -12 < d).
    { rewrite Zlt_Qlt. change (inject_Z (-12)) with (-12 # 1)%Q. lra. }
    destruct (wind16_index d (-1) (d + 360)) as (lbl & _ & Hl & Hg); [lia|lia|].
    replace (Qfloor ((inject_Z (d + 360) + 11.25) / 22.5)) with 16 in Hl.
    + exists lbl. split; [|exact Hg]. simpl in Hl. injection Hl as <-. reflexivity.
    + symmetry. apply Qfloor_unique; rewrite inject_Z_plus;
        change (inject_Z 360) with (360 # 1)%Q.
      * apply Qle_shift_div_l; [reflexivity|]. change (inject_Z 16) with 16%Q. lra.
      * apply Qlt_shift_div_r; [reflexivity|].
        change (inject_Z (16 + 1)) with 17%Q. lra.
  - assert (Hd0 : (0 <= inject_Z d)%Q)
      by (change 0%Q with (inject_Z 0); now rewrite <- Zle_Qle).
    destruct (wind16_index d 0 d) as (lbl & _ & Hl & Hg); [lia|lia|].
    replace (Qfloor ((inject_Z d + 11.25) / 22.5)) with i in Hl.
    + now exists lbl.
    + symmetry. apply Qfloor_unique.
      * apply Qle_shift_div_l; [reflexivity|]. lra.
      * apply Qlt_shift_div_r; [reflexivity|]. rewrite inject_Z_plus.
        change (inject_Z 1) with 1%Q. lra.
Qed.

Lemma wind_direction16_sector_witness :
  Env.get_wind_direction16 (NInt 100) = Return "O"%string.
Proof.
  destruct (wind_direction16_sector 100 4) as (lbl & Hl & Hg).
  - lia.
  - vm_compute. discriminate.
  - vm_compute. reflexivity.
  - simpl in Hl. injection Hl as <-. exact Hg.
Defined.

(** On each [int] bearing of a turn, a principal label of the 16-point
    function is the label of the 8-point function (by evaluation). *)
Lemma turn_checked_principal : forallb principal_agrees turn = true.
Proof. vm_compute. reflexivity. Qed.

(** X11.  The 16-point rose refines the 8-point rose on [int] bearings:
    whenever [get_wind_direction16] returns one of the eight principal
    labels, [get_wind_direction8] returns the same label for that
    bearing. *)
Theorem wind_direction16_refines8 (d : Z) (lbl : string) :
  Env.get_wind_direction16 (NInt d) = Return lbl ->
  In lbl Env.direction_array8 ->
  Env.get_wind_direction8 (NInt d) = Return lbl.
Proof.
  intros H16 Hin. rewrite wind16_reduce in H16. rewrite wind8_reduce.
  assert (Hr : 0 <= d mod 360 < 360) by (apply Z.mod_pos_bound; lia).
  pose proof turn_checked_principal as Hall. rewrite forallb_forall in Hall.
  specialize (Hall _ (in_turn _ Hr)). unfold principal_agrees in Hall.
  rewrite H16 in Hall.
  destruct (Env.get_wind_direction8 (NInt (d mod 360))) as [b|e]; [|discriminate].
  apply list_elem_of_In in Hin.
  rewrite (bool_decide_eq_true_2 _ Hin) in Hall. simpl in Hall.
  apply String.eqb_eq in Hall. now subst b.
Qed.

Lemma wind_direction16_refines8_witness :
  Env.get_wind_direction8 (NInt (-45)) = Return "NW"%string.
Proof.
  apply (wind_direction16_refines8 (-45) "NW").
  - vm_compute. reflexivity.
  - unfold Env.direction_array8. simpl. tauto.
Defined.

End LibEnvFacts.
